(** * Open GoPro BLE attribute table ([open_gopro/ble/services.py])

    A shallow embedding of the UUID value type, the descriptor /
    characteristic / service records, the [GattDB] attribute table with its
    live characteristic view and CSV dump, and the [UUIDs] registry guard,
    followed by the properties established about them.

    Conventions.
    - Python [int] is [Z]; [bytes] is [list byte]; [str] is [string]
      (ASCII text, which is all the hexadecimal forms use).
    - A raising call returns [Raise e]; a returning call returns [Ok v].
    - A Python [dict] is an insertion-ordered association list; the objects
      that the program shares and mutates (the service mapping, the services
      and their characteristic mappings, the [GattDB] and its view) live in
      an explicit store addressed by references. *)

From Stdlib Require Import ZArith NArith List String Ascii Bool Lia.
From Stdlib Require Import Strings.Byte.
From stdpp Require Import gmap.
Import ListNotations.

Local Open Scope Z_scope.

(** ** Python results and exceptions *)

Inductive exn : Type :=
| KeyError
| ValueError
| OverflowError
| Exception (msg : string)
| TypeError.

Inductive result (A : Type) : Type :=
| Ok (a : A)
| Raise (e : exn).
Arguments Ok {A} a.
Arguments Raise {A} e.

Definition rbind {A B} (r : result A) (k : A -> result B) : result B :=
  match r with
  | Ok a => k a
  | Raise e => Raise e
  end.

(** ** Python [str] primitives used by the module *)

Module PyStr.

(** [s.replace(c, "")] for a one-character pattern [c]. *)
Fixpoint remove (c : ascii) (s : string) : string :=
  match s with
  | EmptyString => EmptyString
  | String a s' =>
      if Ascii.eqb a c then remove c s' else String a (remove c s')
  end.

Definition lower_char (a : ascii) : ascii :=
  let n := N_of_ascii a in
  if ((65 <=? n) && (n <=? 90))%N then ascii_of_N (n + 32) else a.

(** [s.lower()] *)
Fixpoint lower (s : string) : string :=
  match s with
  | EmptyString => EmptyString
  | String a s' => String (lower_char a) (lower s')
  end.

Fixpoint take (n : nat) (s : string) : string :=
  match n, s with
  | S n', String a s' => String a (take n' s')
  | _, _ => EmptyString
  end.

Fixpoint drop (n : nat) (s : string) : string :=
  match n, s with
  | S n', String _ s' => drop n' s'
  | _, _ => s
  end.

Fixpoint forallb (p : ascii -> bool) (s : string) : bool :=
  match s with
  | EmptyString => true
  | String a s' => p a && forallb p s'
  end.

(** [s[lo:hi]] for literal bounds [0 <= lo <= hi]; out-of-range bounds clamp. *)
Definition slice (lo hi : nat) (s : string) : string :=
  take (hi - lo) (drop lo s).

(** [s[lo:]] *)
Definition slice_from (lo : nat) (s : string) : string := drop lo s.

End PyStr.

(** ** Python [bytes] and [int] primitives used by the module *)

Definition bytes := list byte.

Module PyBytes.

Fixpoint eqb (a b : bytes) : bool :=
  match a, b with
  | [], [] => true
  | x :: a', y :: b' => Byte.eqb x y && eqb a' b'
  | _, _ => false
  end.

(** The byte with numeric value [n mod 256]. *)
Definition byte_of_N (n : N) : byte :=
  match Byte.of_N (n mod 256) with
  | Some b => b
  | None => x00
  end.

(** Lower-case hexadecimal digit of a nibble. *)
Definition hex_digit (n : N) : ascii :=
  if (n <? 10)%N then ascii_of_N (48 + n) else ascii_of_N (87 + n).

(** Value of a hexadecimal digit, upper or lower case. *)
Definition digit_value (a : ascii) : option N :=
  let n := N_of_ascii a in
  if ((48 <=? n) && (n <=? 57))%N then Some (n - 48)%N
  else if ((97 <=? n) && (n <=? 102))%N then Some (n - 87)%N
  else if ((65 <=? n) && (n <=? 70))%N then Some (n - 55)%N
  else None.

Definition is_hexdigit (a : ascii) : bool :=
  match digit_value a with
  | Some _ => true
  | None => false
  end.

(** A digit that [hex] can produce: [0-9a-f]. *)
Definition is_lower_hexdigit (a : ascii) : bool :=
  let n := N_of_ascii a in
  (((48 <=? n) && (n <=? 57)) || ((97 <=? n) && (n <=? 102)))%N.

(** ASCII whitespace, which [bytes.fromhex] skips between byte pairs. *)
Definition is_space (a : ascii) : bool :=
  let n := N_of_ascii a in
  ((n =? 32) || ((9 <=? n) && (n <=? 13)))%N.

(** [b.hex()] *)
Fixpoint hex (b : bytes) : string :=
  match b with
  | [] => EmptyString
  | x :: b' =>
      let n := Byte.to_N x in
      String (hex_digit (n / 16)) (String (hex_digit (n mod 16)) (hex b'))
  end.

(** [bytes.fromhex(s)]: pairs of hexadecimal digits, whitespace allowed
    before a pair; anything else is a [ValueError]. *)
Fixpoint fromhex (s : string) : result bytes :=
  match s with
  | EmptyString => Ok []
  | String c s' =>
      if is_space c then fromhex s'
      else
        match digit_value c, s' with
        | Some hi, String d s'' =>
            match digit_value d with
            | Some lo =>
                rbind (fromhex s'') (fun b => Ok (byte_of_N (16 * hi + lo) :: b))
            | None => Raise ValueError
            end
        | _, _ => Raise ValueError
        end
  end.

(** [int.from_bytes(b, "big")] *)
Definition to_int (b : bytes) : Z :=
  fold_left (fun acc x => acc * 256 + Z.of_N (Byte.to_N x)) b 0.

(** The [len] low base-256 digits of [n], most significant first. *)
Fixpoint be_digits (len : nat) (n : Z) : bytes :=
  match len with
  | O => []
  | S len' => be_digits len' (n / 256) ++ [byte_of_N (Z.to_N (n mod 256))]
  end.

(** [int.to_bytes(n, len, "big")]: unsigned, [OverflowError] when [n] is
    negative or does not fit in [len] bytes. *)
Definition of_int (n : Z) (len : nat) : result bytes :=
  if (n <? 0) || (256 ^ Z.of_nat len <=? n) then Raise OverflowError
  else Ok (be_digits len n).

End PyBytes.

(** ** Spec-defined enumerations *)

Module CharProps.
Definition NONE : Z := 0x00.
Definition BROADCAST : Z := 0x01.
Definition READ : Z := 0x02.
Definition WRITE_NO_RSP : Z := 0x04.
Definition WRITE_YES_RSP : Z := 0x08.
Definition NOTIFY : Z := 0x10.
Definition INDICATE : Z := 0x20.
Definition AUTH_SIGN_WRITE : Z := 0x40.
Definition EXTENDED : Z := 0x80.
Definition NOTIFY_ENCRYPTION_REQ : Z := 0x100.
Definition INDICATE_ENCRYPTION_REQ : Z := 0x200.

(** [flag in props] for an [IntFlag]: every bit of [flag] is set in [props]. *)
Definition contains (props flag : Z) : bool :=
  Z.land flag props =? flag.

(** The union of the ten declared flags. *)
Definition all_bits : Z := 0x3FF.

(** [CharProps(value)] for an integer: the enum module's conversion for an
    [IntFlag], whose boundary is KEEP (Python 3.11 and later; earlier
    versions kept every integer as given).  A non-negative integer is kept, with
    any bits beyond the declared flags; a negative one is read as a
    complement: inside [~all_bits .. -1] it is taken within the ten flag
    bits, below that within the integer's own bit length ([2 ** bit_length],
    [bit_length] being that of the absolute value). *)
Definition of_int (value : Z) : Z :=
  if 0 <=? value then value
  else if - (all_bits + 1) <=? value then all_bits + 1 + value
  else Z.max (all_bits + 1) (2 ^ (Z.log2 (- value) + 1)) + value.
End CharProps.

Module SpecUuidNumber.
Inductive t : Type :=
| PRIMARY_SERVICE
| SECONDARY_SERVICE
| INCLUDE
| CHAR_DECLARATION
| CHAR_EXTENDED_PROPS
| CHAR_USER_DESCR
| CLIENT_CHAR_CONFIG
| SERVER_CHAR_CONFIG
| CHAR_FORMAT
| CHAR_AGGREGATE_FORMAT.

Definition to_int (m : t) : Z :=
  match m with
  | PRIMARY_SERVICE => 0x2800
  | SECONDARY_SERVICE => 0x2801
  | INCLUDE => 0x2802
  | CHAR_DECLARATION => 0x2803
  | CHAR_EXTENDED_PROPS => 0x2900
  | CHAR_USER_DESCR => 0x2901
  | CLIENT_CHAR_CONFIG => 0x2902
  | SERVER_CHAR_CONFIG => 0x2903
  | CHAR_FORMAT => 0x2904
  | CHAR_AGGREGATE_FORMAT => 0x2905
  end.

Definition members : list t :=
  [PRIMARY_SERVICE; SECONDARY_SERVICE; INCLUDE; CHAR_DECLARATION;
   CHAR_EXTENDED_PROPS; CHAR_USER_DESCR; CLIENT_CHAR_CONFIG;
   SERVER_CHAR_CONFIG; CHAR_FORMAT; CHAR_AGGREGATE_FORMAT].

(** [SpecUuidNumber(n)]: the member with value [n], else [ValueError]. *)
Definition of_int (n : Z) : result t :=
  match find (fun m => to_int m =? n) members with
  | Some m => Ok m
  | None => Raise ValueError
  end.

(** [member.name] *)
Definition name (m : t) : string :=
  match m with
  | PRIMARY_SERVICE => "PRIMARY_SERVICE"
  | SECONDARY_SERVICE => "SECONDARY_SERVICE"
  | INCLUDE => "INCLUDE"
  | CHAR_DECLARATION => "CHAR_DECLARATION"
  | CHAR_EXTENDED_PROPS => "CHAR_EXTENDED_PROPS"
  | CHAR_USER_DESCR => "CHAR_USER_DESCR"
  | CLIENT_CHAR_CONFIG => "CLIENT_CHAR_CONFIG"
  | SERVER_CHAR_CONFIG => "SERVER_CHAR_CONFIG"
  | CHAR_FORMAT => "CHAR_FORMAT"
  | CHAR_AGGREGATE_FORMAT => "CHAR_AGGREGATE_FORMAT"
  end%string.
End SpecUuidNumber.

Module UuidLength.
Inductive t : Type := BIT_8 | BIT_128.

Definition to_nat (l : t) : nat :=
  match l with
  | BIT_8 => 2%nat
  | BIT_128 => 16%nat
  end.
End UuidLength.

(** ** UUID *)

Module UUID.

Record t : Type := Build { value : bytes; name : string }.

(** [as_int] *)
Definition as_int (self : t) : Z := PyBytes.to_int (value self).

(** [as_string]: the hex text cut at 8, 12, 16 and 20 and joined by ["-"]. *)
Definition as_string (self : t) : string :=
  let h := PyBytes.hex (value self) in
  (PyStr.slice 0 8 h ++ "-" ++ PyStr.slice 8 12 h ++ "-" ++
   PyStr.slice 12 16 h ++ "-" ++ PyStr.slice 16 20 h ++ "-" ++
   PyStr.slice_from 20 h)%string.

(** [__str__] *)
Definition str (self : t) : string :=
  if String.eqb (name self) "" then as_string self else name self.

(** [from_int] *)
Definition from_int (uuid : Z) (length : UuidLength.t) (name : string) : result t :=
  rbind (PyBytes.of_int uuid (UuidLength.to_nat length)) (fun b => Ok (Build b name)).

(** [normalize] *)
Definition normalize (uuid : string) : string :=
  PyStr.remove "-" (PyStr.remove ":" uuid).

(** [from_string] *)
Definition from_string (uuid : string) (name : string) : result t :=
  rbind (PyBytes.fromhex (normalize uuid)) (fun b => Ok (Build b name)).

(** The right-hand operands that [__eq__] tells apart with [isinstance]. *)
Inductive operand : Type :=
| VUUID (u : t)
| VInt (n : Z)
| VBytes (b : bytes)
| VStr (s : string)
| VOther.

(** [__eq__] *)
Definition eq (self : t) (other : operand) : bool :=
  match other with
  | VUUID o => PyBytes.eqb (value self) (value o)
  | VInt n => as_int self =? n
  | VBytes b => PyBytes.eqb (value self) b
  | VStr s =>
      String.eqb (PyStr.lower (PyStr.remove ":" (as_string self))) (PyStr.lower s)
  | VOther => false
  end.

(** [a == b] for two UUIDs, which is also how a [dict] keyed by UUIDs
    matches keys ([__hash__] hashes [value], so equal keys hash alike). *)
Definition eqb (a b : t) : bool := eq a (VUUID b).

End UUID.

(** ** Python [dict]: insertion-ordered association list *)

Module Dict.
Section Ops.
Context {K V : Type} (keq : K -> K -> bool).

Definition t : Type := list (K * V).

Definition keys (d : t) : list K := map fst d.
Definition values (d : t) : list V := map snd d.
Definition items (d : t) : list (K * V) := d.
Definition len (d : t) : Z := Z.of_nat (List.length d).

(** [d[k]] *)
Fixpoint getitem (d : t) (k : K) : result V :=
  match d with
  | [] => Raise KeyError
  | (k', v) :: d' => if keq k' k then Ok v else getitem d' k
  end.

(** [d[k] = v]: an existing key keeps its place and its key object. *)
Fixpoint setitem (d : t) (k : K) (v : V) : t :=
  match d with
  | [] => [(k, v)]
  | (k', v') :: d' =>
      if keq k' k then (k', v) :: d' else (k', v') :: setitem d' k v
  end.

(** [k in d] *)
Definition contains (d : t) (k : K) : bool :=
  existsb (fun kv => keq (fst kv) k) d.

(** The invariant of a dict: no two entries have equal keys. *)
Fixpoint wf (d : t) : Prop :=
  match d with
  | [] => True
  | (k, _) :: d' => contains d' k = false /\ wf d'
  end.
End Ops.
Arguments t : clear implicits.
End Dict.

(** ** Descriptor, Characteristic, Service *)

(** The naming step shared by the two [__post_init__] methods,
    an unnamed UUID takes the name of the record being built.  It writes into
    the UUID object that was handed to the constructor, so the result is the
    state of that one object afterwards, for the new record and for whoever
    else holds the object. *)
Definition post_init_uuid (uuid : UUID.t) (name : string) : UUID.t :=
  if String.eqb (UUID.name uuid) "" then UUID.Build (UUID.value uuid) name
  else uuid.

Module Descriptor.
Record t : Type := Build {
  handle : Z;
  uuid : UUID.t;
  value : option bytes
}.
End Descriptor.

Module Characteristic.

Record t : Type := Build {
  handle : Z;
  descriptor_handle : Z;
  uuid : UUID.t;
  props : Z;
  name : string;
  value : option bytes;
  descriptors : Dict.t UUID.t Descriptor.t
}.

(** The dataclass constructor followed by [__post_init__], with the one
    object it writes to passed explicitly: the result is the new
    characteristic together with the caller's UUID object as the constructor
    leaves it.  The property mask is re-made by [CharProps(int(props))]; the
    characteristic's [uuid] is that same UUID object.  A record value shows
    the objects as they are when it is built. *)
Definition construct (handle descriptor_handle : Z) (uuid : UUID.t) (props : Z)
    (name : string) (value : option bytes)
    (descriptors : Dict.t UUID.t Descriptor.t) : t * UUID.t :=
  let uuid' := post_init_uuid uuid name in
  (Build handle descriptor_handle uuid' (CharProps.of_int props) name value descriptors,
   uuid').

(** The characteristic that the constructor returns. *)
Definition make (handle descriptor_handle : Z) (uuid : UUID.t) (props : Z)
    (name : string) (value : option bytes)
    (descriptors : Dict.t UUID.t Descriptor.t) : t :=
  fst (construct handle descriptor_handle uuid props name value descriptors).

Definition is_readable (self : t) : bool :=
  CharProps.contains (props self) CharProps.NOTIFY.

Definition is_writeable_with_response (self : t) : bool :=
  CharProps.contains (props self) CharProps.WRITE_YES_RSP.

Definition is_writeable_without_response (self : t) : bool :=
  CharProps.contains (props self) CharProps.WRITE_NO_RSP.

Definition is_writeable (self : t) : bool :=
  is_writeable_with_response self || is_writeable_without_response self.

Definition is_notifiable (self : t) : bool :=
  CharProps.contains (props self) CharProps.NOTIFY.

Definition is_indicatable (self : t) : bool :=
  CharProps.contains (props self) CharProps.INDICATE.

(** The key [cccd_handle] looks up: [UUID.from_int(CLIENT_CHAR_CONFIG, BIT_8)]. *)
Definition cccd_key : result UUID.t :=
  UUID.from_int (SpecUuidNumber.to_int SpecUuidNumber.CLIENT_CHAR_CONFIG)
    UuidLength.BIT_8 "".

(** [cccd_handle] *)
Definition cccd_handle (self : t) : result Z :=
  rbind cccd_key (fun k =>
  rbind (Dict.getitem UUID.eqb (descriptors self) k) (fun d =>
  Ok (Descriptor.handle d))).

End Characteristic.

Module Service.

Record t : Type := Build {
  uuid : UUID.t;
  start_handle : Z;
  name : string;
  end_handle : Z;
  chars : Dict.t UUID.t Characteristic.t
}.

Definition default_end_handle : Z := 0xFFFF.

(** The dataclass constructor followed by [__post_init__]: the new service
    and the caller's UUID object as the constructor leaves it. *)
Definition construct (uuid : UUID.t) (start_handle : Z) (name : string)
    (end_handle : Z) (chars : Dict.t UUID.t Characteristic.t) : t * UUID.t :=
  let uuid' := post_init_uuid uuid name in
  (Build uuid' start_handle name end_handle chars, uuid').

(** The service that the constructor returns. *)
Definition make (uuid : UUID.t) (start_handle : Z) (name : string)
    (end_handle : Z) (chars : Dict.t UUID.t Characteristic.t) : t :=
  fst (construct uuid start_handle name end_handle chars).

End Service.

(** ** GattDB over a snapshot of the service mapping *)

(** One field handed to [csv.writer.writerow], before the writer turns it
    into text. *)
Inductive cell : Type :=
| CStr (s : string)                    (* a [str] *)
| CInt (n : Z)                         (* an [int] *)
| CSpec (m : SpecUuidNumber.t)         (* an [IntEnum] member *)
| CPropsStr (props : Z)                (* the text [str(CharProps(props))] *)
| CBytes (b : bytes)                   (* a [bytes] value *)
| CNone                                (* [None] *)
| CType (qualname : string).           (* a class object *)

Definition row : Type := list cell.

Definition cell_of_value (v : option bytes) : cell :=
  match v with
  | Some b => CBytes b
  | None => CNone
  end.

(** [str(cls)] for a class defined in module [modname]. *)
Definition type_str (modname qualname : string) : string :=
  ("<class '" ++ modname ++ "." ++ qualname ++ "'>")%string.

Module GattDB.

Definition services_t : Type := Dict.t UUID.t Service.t.

(** The nested scan shared by the lookups: services in mapping order,
    characteristics in each service's mapping order, first hit returns. *)
Fixpoint scan_chars (p : Characteristic.t -> bool) (cs : list Characteristic.t)
    : option Characteristic.t :=
  match cs with
  | [] => None
  | c :: cs' => if p c then Some c else scan_chars p cs'
  end.

Fixpoint scan (p : Characteristic.t -> bool) (ss : list Service.t)
    : option Characteristic.t :=
  match ss with
  | [] => None
  | s :: ss' =>
      match scan_chars p (Dict.values (Service.chars s)) with
      | Some c => Some c
      | None => scan p ss'
      end
  end.

Module CharacteristicView.

(** [__getitem__] *)
Definition getitem (services : services_t) (key : UUID.operand)
    : result Characteristic.t :=
  match scan (fun c => UUID.eq (Characteristic.uuid c) key) (Dict.values services) with
  | Some c => Ok c
  | None => Raise KeyError
  end.

(** [__contains__] *)
Definition contains (services : services_t) (key : UUID.operand) : bool :=
  match scan (fun c => UUID.eq (Characteristic.uuid c) key) (Dict.values services) with
  | Some _ => true
  | None => false
  end.

(** [__len__] *)
Definition len (services : services_t) : Z :=
  fold_right Z.add 0
    (map (fun s => Dict.len (Service.chars s)) (Dict.values services)).

(** [keys], [values], [items]: the generators' output, in order. *)
Definition keys (services : services_t) : list UUID.t :=
  flat_map (fun s => Dict.keys (Service.chars s)) (Dict.values services).

Definition values (services : services_t) : list Characteristic.t :=
  flat_map (fun s => Dict.values (Service.chars s)) (Dict.values services).

Definition items (services : services_t) : list (UUID.t * Characteristic.t) :=
  flat_map (fun s => Dict.items (Service.chars s)) (Dict.values services).

End CharacteristicView.

(** [handle2uuid] *)
Definition handle2uuid (services : services_t) (handle : Z) : result UUID.t :=
  match scan (fun c => Characteristic.handle c =? handle) (Dict.values services) with
  | Some c => Ok (Characteristic.uuid c)
  | None => Raise KeyError
  end.

(** [uuid2handle] *)
Definition uuid2handle (services : services_t) (uuid : UUID.t) : result Z :=
  rbind (CharacteristicView.getitem services (UUID.VUUID uuid))
    (fun c => Ok (Characteristic.handle c)).

(** *** [dump_to_csv]

    The writer is the list of rows written so far, oldest first.  A dump
    returns the rows it wrote together with how it ended: rows already
    written stay written when a later descriptor raises. *)

Definition writer : Type := list row.

Definition writerow (w : writer) (r : row) : writer := w ++ [r].

Definition header : row :=
  [CStr "handle"; CStr "description"; CType "UUID"; CStr "properties"; CStr "value"].

Definition service_row (service : Service.t) : row :=
  let desc := if String.eqb (Service.name service) "" then "unknown"%string
              else Service.name service in
  [CInt (Service.start_handle service);
   CSpec SpecUuidNumber.PRIMARY_SERVICE;
   CStr (UUID.as_string (Service.uuid service));
   CStr desc;
   CStr "SERVICE"].

Definition declaration_row (char : Characteristic.t) : row :=
  [CInt (Characteristic.descriptor_handle char);
   CSpec SpecUuidNumber.CHAR_DECLARATION;
   CStr "28:03";
   CPropsStr (Characteristic.props char);
   CStr ""].

Definition value_row (char : Characteristic.t) : row :=
  let description := if String.eqb (Characteristic.name char) "" then "unknown"%string
                     else Characteristic.name char in
  [CInt (Characteristic.handle char);
   CStr description;
   CStr (UUID.as_string (Characteristic.uuid char));
   CStr "";
   cell_of_value (Characteristic.value char)].

Definition descriptor_row (descriptor : Descriptor.t) : result row :=
  rbind (SpecUuidNumber.of_int (UUID.as_int (Descriptor.uuid descriptor)))
    (fun m =>
       Ok [CInt (Descriptor.handle descriptor);
           CStr (SpecUuidNumber.name m);
           CStr (UUID.as_string (Descriptor.uuid descriptor));
           CStr "";
           cell_of_value (Descriptor.value descriptor)]).

Fixpoint dump_descriptors (w : writer) (ds : list Descriptor.t)
    : writer * result unit :=
  match ds with
  | [] => (w, Ok tt)
  | d :: ds' =>
      match descriptor_row d with
      | Ok r => dump_descriptors (writerow w r) ds'
      | Raise e => (w, Raise e)
      end
  end.

Fixpoint dump_chars (w : writer) (cs : list Characteristic.t)
    : writer * result unit :=
  match cs with
  | [] => (w, Ok tt)
  | c :: cs' =>
      let w1 := writerow w (declaration_row c) in
      let w2 := writerow w1 (value_row c) in
      match dump_descriptors w2 (Dict.values (Characteristic.descriptors c)) with
      | (w3, Ok _) => dump_chars w3 cs'
      | (w3, Raise e) => (w3, Raise e)
      end
  end.

Fixpoint dump_services (w : writer) (ss : list Service.t)
    : writer * result unit :=
  match ss with
  | [] => (w, Ok tt)
  | s :: ss' =>
      let w1 := writerow w (service_row s) in
      match dump_chars w1 (Dict.values (Service.chars s)) with
      | (w2, Ok _) => dump_services w2 ss'
      | (w2, Raise e) => (w2, Raise e)
      end
  end.

(** [dump_to_csv]: the file is opened for writing (so it starts empty),
    the header goes first, then the services. *)
Definition dump_to_csv (services : services_t) : writer * result unit :=
  dump_services (writerow [] header) (Dict.values services).

(** The rows after the header. *)
Definition body (w : writer) : list row := tl w.

End GattDB.

(** ** The shared objects: store, construction, live view, mutation *)

Module Store.

Abbreviation ref := positive (only parsing).

Inductive obj : Type :=
| ServiceMap (d : Dict.t UUID.t ref)          (* a [Dict[UUID, Service]] *)
| ServiceObj (uuid : UUID.t) (start_handle : Z) (name : string)
    (end_handle : Z) (chars : ref)            (* a [Service]; [chars] is its dict *)
| CharMap (d : Dict.t UUID.t Characteristic.t) (* a [Dict[UUID, Characteristic]] *)
| GattDBObj (services : ref) (characteristics : ref)
| ViewObj (db : ref).                         (* a [CharacteristicView]; [_db] *)

Abbreviation t := (gmap positive obj) (only parsing).

Definition alloc (h : t) (o : obj) : t * ref :=
  let r := fresh (dom h) in (<[r := o]> h, r).

(** [GattDB.__init__]: the object keeps the mapping it was given (no copy)
    and builds a view that keeps a reference back to the object. *)
Definition GattDB_init (h : t) (services : ref) : t * ref :=
  let db := fresh (dom h) in
  let view := fresh ({[db]} ∪ dom h) in
  (<[view := ViewObj db]> (<[db := GattDBObj services view]> h), db).

(** [db.characteristics] *)
Definition characteristics (h : t) (db : ref) : option ref :=
  match h !! db with
  | Some (GattDBObj _ view) => Some view
  | _ => None
  end.

(** Reading a service object together with its characteristic dict. *)
Definition read_service (h : t) (r : ref) : option Service.t :=
  match h !! r with
  | Some (ServiceObj u sh n eh cm) =>
      match h !! cm with
      | Some (CharMap d) => Some (Service.Build u sh n eh d)
      | _ => None
      end
  | _ => None
  end.

Fixpoint read_entries (h : t) (d : Dict.t UUID.t ref) : option GattDB.services_t :=
  match d with
  | [] => Some []
  | (k, r) :: d' =>
      match read_service h r, read_entries h d' with
      | Some s, Some rest => Some ((k, s) :: rest)
      | _, _ => None
      end
  end.

(** The service mapping at [sm] as it stands in [h]. *)
Definition read_services (h : t) (sm : ref) : option GattDB.services_t :=
  match h !! sm with
  | Some (ServiceMap d) => read_entries h d
  | _ => None
  end.

(** [view._db.services], followed through the store at call time. *)
Definition view_services (h : t) (view : ref) : option GattDB.services_t :=
  match h !! view with
  | Some (ViewObj db) =>
      match h !! db with
      | Some (GattDBObj sm _) => read_services h sm
      | _ => None
      end
  | _ => None
  end.

Definition view_len (h : t) (view : ref) : option Z :=
  option_map GattDB.CharacteristicView.len (view_services h view).


Definition view_contains (h : t) (view : ref) (key : UUID.operand) : option bool :=
  option_map (fun ss => GattDB.CharacteristicView.contains ss key) (view_services h view).

(** [service.chars[key] = char] on the service object at [s]. *)
Definition add_char (h : t) (s : ref) (key : UUID.t) (char : Characteristic.t)
    : option t :=
  match h !! s with
  | Some (ServiceObj _ _ _ _ cm) =>
      match h !! cm with
      | Some (CharMap d) => Some (<[cm := CharMap (Dict.setitem UUID.eqb d key char)]> h)
      | _ => None
      end
  | _ => None
  end.

(** [services[key] = Service(uuid, start_handle, name, end_handle, chars)]
    on the mapping at [sm], with a newly made service and dict. *)
Definition add_service (h : t) (sm : ref) (key : UUID.t) (s : Service.t)
    : option t :=
  match h !! sm with
  | Some (ServiceMap d) =>
      let '(h1, cm) := alloc h (CharMap (Service.chars s)) in
      let '(h2, r) :=
        alloc h1 (ServiceObj (Service.uuid s) (Service.start_handle s)
                    (Service.name s) (Service.end_handle s) cm) in
      Some (<[sm := ServiceMap (Dict.setitem UUID.eqb d key r)]> h2)
  | _ => None
  end.

(** What the program may do to the table after the [GattDB] exists. *)
Inductive mutation : t -> t -> Prop :=
| mut_add_char h s key char h' :
    add_char h s key char = Some h' -> mutation h h'
| mut_add_service h sm key s h' :
    add_service h sm key s = Some h' -> mutation h h'.


(** Every reference in the mapping at [sm] leads to a service and its dict. *)
Definition readable (h : t) (sm : ref) : Prop :=
  exists ss, read_services h sm = Some ss.


(** The object graph that [GattDB.__init__] sets up: the view points at
    the database object, which points at the mapping and at the view. *)
Definition linked (h : t) (sm db view : ref) : Prop :=
  h !! view = Some (ViewObj db) /\
  h !! db = Some (GattDBObj sm view) /\
  readable h sm.

End Store.

(** ** The registry metaclass *)

Module UUIDsMeta.

(** A value bound in a class body: a [UUID], or anything else (the
    functions and strings under the double-underscore names). *)
Inductive attr : Type :=
| AUUID (u : UUID.t)
| AOther.

(** The name table [_uuids]: UUID to name. *)
Definition table : Type := Dict.t UUID.t string.

(** [k.startswith("__")] *)
Definition is_dunder (k : string) : bool := String.prefix "__" k.

(** The loop of [__new__]: every attribute whose name does not start with
    two underscores is entered as [_uuids[uuid] = uuid.name].  [None] stands
    for the failure of [uuid.name] on an attribute that is not a UUID. *)
Fixpoint collect (uuids : table) (dct : list (string * attr)) : option table :=
  match dct with
  | [] => Some uuids
  | (k, v) :: dct' =>
      if is_dunder k then collect uuids dct'
      else
        match v with
        | AUUID uuid => collect (Dict.setitem UUID.eqb uuids uuid (UUID.name uuid)) dct'
        | AOther => None
        end
  end.

(** [__new__]: the table of the new class, starting from the empty dict. *)
Definition new (dct : list (string * attr)) : option table := collect [] dct.

(** [__getitem__] *)
Definition getitem (uuids : table) (key : UUID.t) : result string :=
  Dict.getitem UUID.eqb uuids key.

(** [__contains__] *)
Definition contains (uuids : table) (uuid : UUID.t) : bool :=
  Dict.contains UUID.eqb uuids uuid.

(** [__iter__]: the items, in table order. *)
Definition iter (uuids : table) : list (UUID.t * string) := Dict.items uuids.

End UUIDsMeta.

(** ** The UUIDs registry guard *)

Module UUIDs.

(** What a successful construction would hand back. *)
Inductive instance : Type := Instance.

(** [UUIDs.__new__] *)
Definition new : result instance :=
  Raise (Exception "This class shall not be instantiated").

(** [UUIDs()]: the class call runs [__new__] and initialises what it returns. *)
Definition call : result instance :=
  rbind new (fun self => Ok self).

(** A call of the class with arguments: the class call hands them on to
    [__new__(cls)], which takes none besides the class, so a call with any
    positional or keyword argument is refused with [TypeError] before the
    body of [__new__] runs. *)
Definition call_with (args : list UUID.operand) (kwargs : list (string * UUID.operand))
    : result instance :=
  match args, kwargs with
  | [], [] => call
  | _, _ => Raise TypeError
  end.

(** [object.__new__(UUIDs)]: allocation by the base class, which does not
    go through [UUIDs.__new__]. *)
Definition object_new : result instance := Ok Instance.

(** The ways a program can ask for an instance of the class. *)
Inductive attempt : Type :=
| Call (args : list UUID.operand) (kwargs : list (string * UUID.operand))
| ObjectNew.

Definition instantiate (a : attempt) : result instance :=
  match a with
  | Call args kwargs => call_with args kwargs
  | ObjectNew => object_new
  end.

(** The constants of the class body, in declaration order: attribute name,
    the text given to [UUID.from_string], and the display name. *)
Definition declarations : list (string * (string * string)) :=
  [ ("S_GENERIC_ATT", ("00001801-0000-1000-8000-00805f9b34fb", "Generic Attribute Service"));
    ("S_GENERIC_ACCESS", ("00001800-0000-1000-8000-00805f9b34fb", "Generic Access Service"));
    ("ACC_DEVICE_NAME", ("00002a00-0000-1000-8000-00805f9b34fb", "Device Name"));
    ("ACC_APPEARANCE", ("00002a01-0000-1000-8000-00805f9b34fb", "Appearance"));
    ("ACC_PREF_CONN_PARAMS", ("00002a04-0000-1000-8000-00805f9b34fb",
                              "Peripheral Preferred Connection Parameters"));
    ("ACC_CENTRAL_ADDR_RES", ("00002aa6-0000-1000-8000-00805f9b34fb",
                              "Central Address Resolution"));
    ("S_TX_POWER", ("00001804-0000-1000-8000-00805f9b34fb", "Tx Power Service"));
    ("TX_POWER_LEVEL", ("00002a07-0000-1000-8000-00805f9b34fb", "Tx Power Level"));
    ("S_BATTERY", ("0000180f-0000-1000-8000-00805f9b34fb", "Battery Service"));
    ("BATT_LEVEL", ("00002a19-0000-1000-8000-00805f9b34fb", "Battery Level"));
    ("S_DEV_INFO", ("0000180a-0000-1000-8000-00805f9b34fb", "Device Information Service"));
    ("INF_MAN_NAME", ("00002a29-0000-1000-8000-00805f9b34fb", "Manufacturer Name"));
    ("INF_MODEL_NUM", ("00002a24-0000-1000-8000-00805f9b34fb", "Model Number"));
    ("INF_SERIAL_NUM", ("00002a25-0000-1000-8000-00805f9b34fb", "Serial Number"));
    ("INF_FW_REV", ("00002a26-0000-1000-8000-00805f9b34fb", "Firmware Revision"));
    ("INF_HW_REV", ("00002a27-0000-1000-8000-00805f9b34fb", "Hardware Revision"));
    ("INF_SW_REV", ("00002a28-0000-1000-8000-00805f9b34fb", "Software Revision"));
    ("INF_SYS_ID", ("00002a23-0000-1000-8000-00805f9b34fb", "System ID"));
    ("INF_CERT_DATA", ("00002a2a-0000-1000-8000-00805f9b34fb", "Certification Data"));
    ("INF_PNP_ID", ("00002a50-0000-1000-8000-00805f9b34fb", "PNP ID")) ]%string.

(** Evaluating the class body: each constant is built by [from_string]; the
    first one that raises stops the class definition. *)
Fixpoint evaluate (decls : list (string * (string * string)))
    : result (list (string * UUIDsMeta.attr)) :=
  match decls with
  | [] => Ok []
  | (attr_name, (text, display)) :: decls' =>
      rbind (UUID.from_string text display) (fun u =>
      rbind (evaluate decls') (fun rest =>
      Ok ((attr_name, UUIDsMeta.AUUID u) :: rest)))
  end.

(** The namespace handed to the metaclass: the double-underscore entries of
    a class body and [__new__], then the constants. *)
Definition namespace : result (list (string * UUIDsMeta.attr)) :=
  rbind (evaluate declarations) (fun consts =>
  Ok ([("__module__", UUIDsMeta.AOther); ("__qualname__", UUIDsMeta.AOther);
       ("__annotations__", UUIDsMeta.AOther); ("__doc__", UUIDsMeta.AOther);
       ("__new__", UUIDsMeta.AOther)]%string ++ consts)).

(** [UUIDs._uuids] as the metaclass leaves it. *)
Definition _uuids : result (option UUIDsMeta.table) :=
  rbind namespace (fun ns => Ok (UUIDsMeta.new ns)).

End UUIDs.

(** ** Vocabulary of the properties *)

(** The separators that [normalize] strips. *)
Definition is_separator (a : ascii) : bool :=
  Ascii.eqb a ":" || Ascii.eqb a "-".

(** Text made of hexadecimal digits and separators only. *)
Definition hex_with_separators (s : string) : bool :=
  PyStr.forallb (fun a => PyBytes.is_hexdigit a || is_separator a) s.

(** The two bytes of the Client Characteristic Configuration identifier. *)
Definition cccd_bytes : bytes := [x29; x02].

Definition uuid_2902 : UUID.t := UUID.Build cccd_bytes "".

(** A descriptor mapping is keyed by descriptor UUID: every entry sits
    under a key equal to the UUID of the descriptor it holds. *)
Definition keyed_by_uuid (d : Dict.t UUID.t Descriptor.t) : Prop :=
  Forall (fun kv => UUID.eqb (fst kv) (Descriptor.uuid (snd kv)) = true) d.

(** A characteristic whose descriptor mapping is not keyed by the
    descriptors' own UUIDs: the CCCD (UUID 0x2902, handle 20) is stored
    under the key 0x2901, and a user-description descriptor (UUID 0x2901,
    handle 119) under the key 0x2902. *)
Module Miskeyed.

Definition uuid_2901 : UUID.t := UUID.Build [x29; x01] "".

Definition cccd : Descriptor.t := Descriptor.Build 20 uuid_2902 None.

Definition user_descr : Descriptor.t := Descriptor.Build 119 uuid_2901 None.

Definition char : Characteristic.t :=
  Characteristic.make 0x0012 0x0011 uuid_2902 CharProps.NOTIFY "" None
    [(uuid_2901, cccd); (uuid_2902, user_descr)].

(** No CCCD at all, but the user description sits under the key 0x2902. *)
Definition char_without_cccd : Characteristic.t :=
  Characteristic.make 0x0012 0x0011 uuid_2902 CharProps.NOTIFY "" None
    [(uuid_2902, user_descr)].

End Miskeyed.

(** The Battery scenario: one service, one characteristic, one CCCD. *)
Module Battery.

Definition S_BATTERY : UUID.t :=
  UUID.Build [x00; x00; x18; x0f; x00; x00; x10; x00;
              x80; x00; x00; x80; x5f; x9b; x34; xfb] "Battery Service".

Definition BATT_LEVEL : UUID.t :=
  UUID.Build [x00; x00; x2a; x19; x00; x00; x10; x00;
              x80; x00; x00; x80; x5f; x9b; x34; xfb] "Battery Level".

Definition cccd : Descriptor.t :=
  Descriptor.Build 0x0013 uuid_2902 (Some [x01; x00]).

Definition level : Characteristic.t :=
  Characteristic.make 0x0012 0x0011 BATT_LEVEL
    (Z.lor CharProps.READ CharProps.NOTIFY) "Battery Level" None
    [(uuid_2902, cccd)].

Definition service : Service.t :=
  Service.make S_BATTERY 0x0010 "Battery Service" Service.default_end_handle
    [(BATT_LEVEL, level)].

Definition db : GattDB.services_t := [(S_BATTERY, service)].

(** The same table as shared objects: the mapping at [sm], the service
    object at [service_ref], its characteristic dict at [chars_ref]. *)
Definition sm : Store.ref := 1%positive.
Definition service_ref : Store.ref := 2%positive.
Definition chars_ref : Store.ref := 3%positive.

Definition store : Store.t :=
  <[chars_ref := Store.CharMap [(BATT_LEVEL, level)]]>
    (<[service_ref := Store.ServiceObj S_BATTERY 0x0010 "Battery Service"
                        Service.default_end_handle chars_ref]>
       (<[sm := Store.ServiceMap [(S_BATTERY, service_ref)]]> ∅)).

(** The store after [GattDB(services)], and the new object's reference. *)
Definition store_with_db : Store.t := fst (Store.GattDB_init store sm).
Definition db_ref : Store.ref := snd (Store.GattDB_init store sm).



End Battery.

(** All descriptors of a table, in dump order. *)
Definition all_descriptors (services : GattDB.services_t) : list Descriptor.t :=
  flat_map (fun c => Dict.values (Characteristic.descriptors c))
    (GattDB.CharacteristicView.values services).

(** The descriptor's UUID, read as an integer, is a spec UUID number. *)
Definition is_recognised (d : Descriptor.t) : bool :=
  match SpecUuidNumber.of_int (UUID.as_int (Descriptor.uuid d)) with
  | Ok _ => true
  | Raise _ => false
  end.

(** A characteristic mapping keyed by the characteristics' own UUIDs. *)
Definition chars_keyed_by_uuid (d : Dict.t UUID.t Characteristic.t) : Prop :=
  Forall (fun kv => UUID.eqb (fst kv) (Characteristic.uuid (snd kv)) = true) d.

(** The display name of the last UUID-valued, non-underscore attribute of a
    class body whose UUID has the bytes of [key]. *)
Fixpoint last_declared (dct : list (string * UUIDsMeta.attr)) (key : UUID.t)
    : option string :=
  match dct with
  | [] => None
  | (k, v) :: dct' =>
      match last_declared dct' key with
      | Some n => Some n
      | None =>
          match v with
          | UUIDsMeta.AUUID u =>
              if negb (UUIDsMeta.is_dunder k) && UUID.eqb u key
              then Some (UUID.name u) else None
          | UUIDsMeta.AOther => None
          end
      end
  end.

(** Every attribute outside the double-underscore names is a UUID. *)
Definition constants_are_uuids (dct : list (string * UUIDsMeta.attr)) : bool :=
  forallb (fun kv => UUIDsMeta.is_dunder (fst kv) ||
                     match snd kv with UUIDsMeta.AUUID _ => true | UUIDsMeta.AOther => false end)
    dct.

(** A second service, discovered after the table was built. *)
Module DeviceInfo.

Definition S_DEV_INFO : UUID.t :=
  UUID.Build [x00; x00; x18; x0a; x00; x00; x10; x00;
              x80; x00; x00; x80; x5f; x9b; x34; xfb] "Device Information Service".

Definition INF_MAN_NAME : UUID.t :=
  UUID.Build [x00; x00; x2a; x29; x00; x00; x10; x00;
              x80; x00; x00; x80; x5f; x9b; x34; xfb] "Manufacturer Name".

Definition man_name : Characteristic.t :=
  Characteristic.make 0x0022 0x0021 INF_MAN_NAME CharProps.READ
    "Manufacturer Name" None [].

Definition service : Service.t :=
  Service.make S_DEV_INFO 0x0020 "Device Information Service"
    Service.default_end_handle [(INF_MAN_NAME, man_name)].

End DeviceInfo.

(** * Properties *)

(** ** Text and byte helpers *)

Lemma append_cons (a : ascii) (s t : string) :
  (String a s ++ t)%string = String a (s ++ t).
Proof. reflexivity. Qed.

Lemma append_nil (t : string) : (EmptyString ++ t)%string = t.
Proof. reflexivity. Qed.

Lemma take_drop (n : nat) (s : string) :
  (PyStr.take n s ++ PyStr.drop n s)%string = s.
Proof.
  revert s; induction n as [|n IH]; intros [|a s]; cbn; try reflexivity.
  rewrite append_cons. f_equal. apply IH.
Qed.

Lemma drop_drop (m n : nat) (s : string) :
  PyStr.drop n (PyStr.drop m s) = PyStr.drop (m + n) s.
Proof.
  revert s; induction m as [|m IH]; intros s; simpl.
  - reflexivity.
  - destruct s as [|a s]; [now destruct n|apply IH].
Qed.

Lemma slices_rejoin (h : string) :
  (PyStr.slice 0 8 h ++ PyStr.slice 8 12 h ++ PyStr.slice 12 16 h ++
   PyStr.slice 16 20 h ++ PyStr.slice_from 20 h)%string = h.
Proof.
  unfold PyStr.slice, PyStr.slice_from.
  change (PyStr.drop 0 h) with h.
  replace (PyStr.drop 20 h) with (PyStr.drop 4 (PyStr.drop 16 h))
    by (rewrite drop_drop; reflexivity).
  change (20 - 16)%nat with 4%nat. rewrite take_drop.
  replace (PyStr.drop 16 h) with (PyStr.drop 4 (PyStr.drop 12 h))
    by (rewrite drop_drop; reflexivity).
  change (16 - 12)%nat with 4%nat. rewrite take_drop.
  replace (PyStr.drop 12 h) with (PyStr.drop 4 (PyStr.drop 8 h))
    by (rewrite drop_drop; reflexivity).
  change (12 - 8)%nat with 4%nat. rewrite take_drop.
  change (8 - 0)%nat with 8%nat. apply take_drop.
Qed.

Lemma remove_app (c : ascii) (s t : string) :
  PyStr.remove c (s ++ t)%string = (PyStr.remove c s ++ PyStr.remove c t)%string.
Proof.
  induction s as [|a s IH]; [reflexivity|].
  rewrite append_cons. simpl.
  destruct (Ascii.eqb a c); [|rewrite append_cons]; now rewrite IH.
Qed.

Lemma remove_absent (c : ascii) (p : ascii -> bool) (s : string) :
  p c = false -> PyStr.forallb p s = true -> PyStr.remove c s = s.
Proof.
  intros Hc. induction s as [|a s IH]; simpl; [reflexivity|].
  intros [Ha Hs]%andb_prop.
  destruct (Ascii.eqb_spec a c) as [->|_]; [congruence|].
  now rewrite IH.
Qed.

Lemma forallb_take (p : ascii -> bool) (n : nat) (s : string) :
  PyStr.forallb p s = true -> PyStr.forallb p (PyStr.take n s) = true.
Proof.
  revert s; induction n as [|n IH]; intros [|a s]; simpl; try reflexivity.
  intros [Ha Hs]%andb_prop. rewrite Ha. now apply IH.
Qed.

Lemma forallb_drop (p : ascii -> bool) (n : nat) (s : string) :
  PyStr.forallb p s = true -> PyStr.forallb p (PyStr.drop n s) = true.
Proof.
  revert s; induction n as [|n IH]; intros [|a s]; simpl; try tauto.
  intros [Ha Hs]%andb_prop. now apply IH.
Qed.

Lemma forallb_weaken (p q : ascii -> bool) (s : string) :
  (forall a, p a = true -> q a = true) ->
  PyStr.forallb p s = true -> PyStr.forallb q s = true.
Proof.
  intros Hpq. induction s as [|a s IH]; simpl; [reflexivity|].
  intros [Ha Hs]%andb_prop. rewrite (Hpq _ Ha). now apply IH.
Qed.

(** Facts about single characters, checked over all 256 of them. *)

Lemma ascii_all (P : ascii -> bool) :
  forallb (fun n => P (ascii_of_nat n)) (seq 0 256) = true ->
  forall a, P a = true.
Proof.
  intros H a. rewrite forallb_forall in H.
  rewrite <- (ascii_nat_embedding a). apply H.
  apply in_seq. pose proof (nat_ascii_bounded a). lia.
Qed.

Lemma hexdigit_facts (a : ascii) :
  PyBytes.is_hexdigit a = true ->
  PyBytes.is_space a = false /\
  exists v, PyBytes.digit_value a = Some v /\ (v < 16)%N /\
            PyBytes.hex_digit v = PyStr.lower_char a.
Proof.
  pose proof (ascii_all (fun a =>
    implb (PyBytes.is_hexdigit a)
      (negb (PyBytes.is_space a) &&
       match PyBytes.digit_value a with
       | Some v => (v <? 16)%N && Ascii.eqb (PyBytes.hex_digit v) (PyStr.lower_char a)
       | None => false
       end)) eq_refl a) as H.
  cbv beta in H. intros Hh. rewrite Hh in H. simpl in H.
  apply andb_prop in H as [Hs H]. split; [now destruct (PyBytes.is_space a)|].
  destruct (PyBytes.digit_value a) as [v|]; [|discriminate].
  apply andb_prop in H as [Hv He]. exists v. split; [reflexivity|].
  split; [now apply N.ltb_lt|now apply Ascii.eqb_eq].
Qed.

Lemma lower_hexdigit_no_sep (a : ascii) :
  PyBytes.is_lower_hexdigit a = true ->
  Ascii.eqb a ":" = false /\ Ascii.eqb a "-" = false /\ PyStr.lower_char a = a.
Proof.
  pose proof (ascii_all (fun a =>
    implb (PyBytes.is_lower_hexdigit a)
      (negb (Ascii.eqb a ":") && negb (Ascii.eqb a "-") &&
       Ascii.eqb (PyStr.lower_char a) a)) eq_refl a) as H.
  cbv beta in H. intros Hh. rewrite Hh in H. simpl in H.
  apply andb_prop in H as [[H1 H2]%andb_prop H3].
  repeat split; [now destruct (Ascii.eqb a ":")|now destruct (Ascii.eqb a "-")|
                 now apply Ascii.eqb_eq].
Qed.

Lemma lower_char_idem (a : ascii) :
  PyStr.lower_char (PyStr.lower_char a) = PyStr.lower_char a.
Proof.
  apply Ascii.eqb_eq.
  exact (ascii_all (fun a =>
    Ascii.eqb (PyStr.lower_char (PyStr.lower_char a)) (PyStr.lower_char a)) eq_refl a).
Qed.

Lemma hex_digit_lower (v : N) :
  (v < 16)%N -> PyBytes.is_lower_hexdigit (PyBytes.hex_digit v) = true.
Proof.
  intros Hv.
  assert (In (N.to_nat v) (seq 0 16)) as Hin by (apply in_seq; lia).
  assert (forallb (fun n => PyBytes.is_lower_hexdigit (PyBytes.hex_digit (N.of_nat n)))
            (seq 0 16) = true) as Hall by reflexivity.
  rewrite forallb_forall in Hall. specialize (Hall _ Hin).
  now rewrite N2Nat.id in Hall.
Qed.

Lemma to_N_byte_of_N (n : N) : (n < 256)%N -> Byte.to_N (PyBytes.byte_of_N n) = n.
Proof.
  intros Hn. unfold PyBytes.byte_of_N. rewrite N.mod_small by exact Hn.
  destruct (Byte.of_N n) as [b|] eqn:E.
  - now apply Byte.to_of_N.
  - apply Byte.of_N_None_iff in E. lia.
Qed.

Lemma hex_byte_of_nibbles (hi lo : N) (b : bytes) :
  (hi < 16)%N -> (lo < 16)%N ->
  PyBytes.hex (PyBytes.byte_of_N (16 * hi + lo) :: b) =
  String (PyBytes.hex_digit hi) (String (PyBytes.hex_digit lo) (PyBytes.hex b)).
Proof.
  intros Hhi Hlo. simpl. rewrite to_N_byte_of_N by lia.
  replace ((16 * hi + lo) / 16)%N with hi
    by (apply N.div_unique with lo; [exact Hlo|reflexivity]).
  replace ((16 * hi + lo) mod 16)%N with lo
    by (apply N.mod_unique with hi; [exact Hlo|reflexivity]).
  reflexivity.
Qed.

Lemma hex_lower_hexdigits (b : bytes) :
  PyStr.forallb PyBytes.is_lower_hexdigit (PyBytes.hex b) = true.
Proof.
  induction b as [|x b IH]; [reflexivity|].
  pose proof (Byte.to_N_bounded x) as Hx. simpl.
  rewrite !hex_digit_lower, IH; [reflexivity| |].
  - apply N.mod_upper_bound. discriminate.
  - apply N.Div0.div_lt_upper_bound. lia.
Qed.

Lemma hex_length (b : bytes) :
  String.length (PyBytes.hex b) = (2 * List.length b)%nat.
Proof. induction b as [|x b IH]; simpl; [reflexivity|rewrite IH; lia]. Qed.

Lemma lower_fixed (s : string) :
  PyStr.forallb PyBytes.is_lower_hexdigit s = true -> PyStr.lower s = s.
Proof.
  induction s as [|a s IH]; simpl; [reflexivity|].
  intros [Ha Hs]%andb_prop.
  destruct (lower_hexdigit_no_sep a Ha) as (_ & _ & ->). now rewrite IH.
Qed.

Lemma remove_lower_hexdigits (c : ascii) (s : string) :
  PyBytes.is_lower_hexdigit c = false ->
  PyStr.forallb PyBytes.is_lower_hexdigit s = true -> PyStr.remove c s = s.
Proof. intros Hc. now apply remove_absent. Qed.

(** [bytes.fromhex] on an even number of hexadecimal digits returns the
    bytes whose [hex] is the lower-cased input. *)
Lemma fromhex_hexdigits (n : nat) (t : string) :
  String.length t = (2 * n)%nat ->
  PyStr.forallb PyBytes.is_hexdigit t = true ->
  exists b, PyBytes.fromhex t = Ok b /\ PyBytes.hex b = PyStr.lower t /\
            List.length b = n.
Proof.
  revert t; induction n as [|n IH]; intros t Hlen Hhex.
  - destruct t; [|discriminate]. exists []. now repeat split.
  - destruct t as [|c [|d t]]; cbn [String.length] in Hlen; try lia.
    simpl in Hhex.
    apply andb_prop in Hhex as [Hc [Hd Ht]%andb_prop].
    destruct (hexdigit_facts c Hc) as (Hsc & hi & Ehi & Hhi & Lhi).
    destruct (hexdigit_facts d Hd) as (_ & lo & Elo & Hlo & Llo).
    destruct (IH t ltac:(lia) Ht) as (b & Eb & Hb & Lb).
    exists (PyBytes.byte_of_N (16 * hi + lo) :: b).
    split; [|split].
    + change (PyBytes.fromhex (String c (String d t))) with
        (if PyBytes.is_space c then PyBytes.fromhex (String d t)
         else match PyBytes.digit_value c, String d t with
              | Some hi, String d s'' =>
                  match PyBytes.digit_value d with
                  | Some lo =>
                      rbind (PyBytes.fromhex s'')
                        (fun b => Ok (PyBytes.byte_of_N (16 * hi + lo) :: b))
                  | None => Raise ValueError
                  end
              | _, _ => Raise ValueError
              end).
      rewrite Hsc, Ehi, Elo, Eb. reflexivity.
    + rewrite hex_byte_of_nibbles by assumption.
      simpl. now rewrite Lhi, Llo, Hb.
    + simpl. now rewrite Lb.
Qed.

Lemma forallb_remove_sep (p : ascii -> bool) (c : ascii) (s : string) :
  PyStr.forallb (fun a => p a || Ascii.eqb a c) s = true ->
  PyStr.forallb p (PyStr.remove c s) = true.
Proof.
  induction s as [|a s IH]; simpl; [reflexivity|].
  intros [Ha Hs]%andb_prop.
  destruct (Ascii.eqb a c); simpl; [now apply IH|].
  rewrite orb_false_r in Ha. rewrite Ha. now apply IH.
Qed.

(** Stripping the separators from the rendered form gives back the hex text. *)
Lemma normalize_as_string (u : UUID.t) :
  UUID.normalize (UUID.as_string u) = PyBytes.hex (UUID.value u).
Proof.
  unfold UUID.normalize, UUID.as_string. cbv zeta.
  pose proof (hex_lower_hexdigits (UUID.value u)) as Hh.
  set (h := PyBytes.hex (UUID.value u)) in *.
  assert (forall lo hi, PyStr.forallb PyBytes.is_lower_hexdigit (PyStr.slice lo hi h) = true)
    as Hsl by (intros; unfold PyStr.slice; now apply forallb_take, forallb_drop).
  assert (PyStr.forallb PyBytes.is_lower_hexdigit (PyStr.slice_from 20 h) = true)
    as Hsf by (unfold PyStr.slice_from; now apply forallb_drop).
  rewrite !(remove_app ":").
  change (PyStr.remove ":" "-") with "-"%string.
  repeat (rewrite (remove_lower_hexdigits ":") by (reflexivity || apply Hsl || exact Hsf)).
  rewrite !(remove_app "-").
  change (PyStr.remove "-" "-") with ""%string.
  repeat (rewrite (remove_lower_hexdigits "-") by (reflexivity || apply Hsl || exact Hsf)).
  rewrite !append_nil. apply slices_rejoin.
Qed.

Lemma bytes_eqb_eq (a b : bytes) : PyBytes.eqb a b = true <-> a = b.
Proof.
  revert b; induction a as [|x a IH]; intros [|y b]; simpl; split;
    try discriminate; try reflexivity.
  - intros [Hx Hab]%andb_prop. apply Byte.byte_dec_bl in Hx. apply IH in Hab.
    now subst.
  - intros [= -> ->]. rewrite Byte.byte_dec_lb by reflexivity. now apply IH.
Qed.

Lemma bytes_eqb_refl (a : bytes) : PyBytes.eqb a a = true.
Proof. now apply bytes_eqb_eq. Qed.

(** ** UUID equality, branch by branch *)

Lemma eq_uuid_same_bytes (a b : UUID.t) :
  UUID.value a = UUID.value b -> UUID.eq a (UUID.VUUID b) = true.
Proof. intros H. simpl. now apply bytes_eqb_eq. Qed.

Lemma eq_int_big_endian (a : UUID.t) :
  UUID.eq a (UUID.VInt (PyBytes.to_int (UUID.value a))) = true.
Proof. simpl. apply Z.eqb_refl. Qed.

Lemma eq_bytes_same (a : UUID.t) :
  UUID.eq a (UUID.VBytes (UUID.value a)) = true.
Proof. simpl. apply bytes_eqb_refl. Qed.

Lemma as_string_chars (u : UUID.t) :
  PyStr.remove ":" (UUID.as_string u) = UUID.as_string u /\
  PyStr.lower (UUID.as_string u) = UUID.as_string u.
Proof.
  assert (PyStr.forallb (fun a => PyBytes.is_lower_hexdigit a || Ascii.eqb a "-")
            (UUID.as_string u) = true) as H.
  { unfold UUID.as_string. cbv zeta.
    pose proof (hex_lower_hexdigits (UUID.value u)) as Hh.
    set (h := PyBytes.hex (UUID.value u)) in *.
    assert (forall s t, PyStr.forallb (fun a => PyBytes.is_lower_hexdigit a || Ascii.eqb a "-") s = true ->
                        PyStr.forallb (fun a => PyBytes.is_lower_hexdigit a || Ascii.eqb a "-") t = true ->
                        PyStr.forallb (fun a => PyBytes.is_lower_hexdigit a || Ascii.eqb a "-") (s ++ t) = true)
      as Happ.
    { intros s t Hs Ht. induction s as [|a s IH]; [exact Ht|].
      rewrite append_cons. simpl in *. apply andb_prop in Hs as [-> Hs].
      now apply IH. }
    assert (forall s, PyStr.forallb PyBytes.is_lower_hexdigit s = true ->
                      PyStr.forallb (fun a => PyBytes.is_lower_hexdigit a || Ascii.eqb a "-") s = true)
      as Hw by (intros s; apply forallb_weaken; intros a ->; reflexivity).
    repeat apply Happ; try reflexivity; apply Hw;
      unfold PyStr.slice, PyStr.slice_from;
      try apply forallb_take; now apply forallb_drop. }
  split.
  - eapply remove_absent; [|exact H]. reflexivity.
  - clear -H. induction (UUID.as_string u) as [|a s IH]; [reflexivity|].
    simpl in *. apply andb_prop in H as [Ha Hs]. rewrite (IH Hs). f_equal.
    apply orb_prop in Ha as [Ha|Ha].
    + now apply lower_hexdigit_no_sep.
    + apply Ascii.eqb_eq in Ha. now subst.
Qed.

(** What the string branch of [__eq__] decides: the other side, lower-cased,
    must be the hyphenated rendering itself. *)
Lemma eq_str_unfold (a : UUID.t) (s : string) :
  UUID.eq a (UUID.VStr s) = String.eqb (UUID.as_string a) (PyStr.lower s).
Proof.
  simpl. destruct (as_string_chars a) as [-> ->]. reflexivity.
Qed.

(** C1 (code evaluated at the failing input): the 2-byte UUID built from
    0x2902 equals the integer 0x2902 and the bytes [29 02], but compared with
    the string "2902" the code answers false, because it compares the
    rendering "2902----" (hyphens kept) with the other side. *)
Theorem eq_str_2902_is_false :
  UUID.from_int 0x2902 UuidLength.BIT_8 "" = Ok uuid_2902 /\
  UUID.eq uuid_2902 (UUID.VInt 0x2902) = true /\
  UUID.eq uuid_2902 (UUID.VBytes [x29; x02]) = true /\
  UUID.as_string uuid_2902 = "2902----"%string /\
  UUID.eq uuid_2902 (UUID.VStr "2902") = false.
Proof. repeat split; reflexivity. Qed.

(** The same on a 16-byte UUID: only the hyphenated rendering, in any
    letter case, compares equal; the bare digits and the colon form do not. *)
Example eq_str_128_bit :
  UUID.eq Battery.S_BATTERY (UUID.VStr "0000180F-0000-1000-8000-00805F9B34FB") = true /\
  UUID.eq Battery.S_BATTERY (UUID.VStr "0000180f00001000800000805f9b34fb") = false /\
  UUID.eq Battery.S_BATTERY
    (UUID.VStr "00:00:18:0f:00:00:10:00:80:00:00:80:5f:9b:34:fb") = false.
Proof. repeat split; reflexivity. Qed.

(** ** Round trip through [from_string] *)

(** C6: a string of hexadecimal digits and ':' / '-' separators holding 32
    digits is accepted by [from_string]; the UUID has 16 bytes, and its
    rendering, separators stripped and lower-cased, is the normalized input
    lower-cased, which is the hex text of those 16 bytes. *)
Theorem from_string_as_string_roundtrip (s name : string) :
  hex_with_separators s = true ->
  String.length (UUID.normalize s) = 32%nat ->
  exists u, UUID.from_string s name = Ok u /\
            List.length (UUID.value u) = 16%nat /\
            PyStr.lower (UUID.normalize (UUID.as_string u)) =
              PyStr.lower (UUID.normalize s) /\
            PyBytes.hex (UUID.value u) = PyStr.lower (UUID.normalize s).
Proof.
  intros Hs Hlen.
  assert (PyStr.forallb PyBytes.is_hexdigit (UUID.normalize s) = true) as Hhex.
  { unfold UUID.normalize. apply forallb_remove_sep, forallb_remove_sep.
    revert Hs. unfold hex_with_separators. apply forallb_weaken.
    intros a. unfold is_separator.
    destruct (PyBytes.is_hexdigit a), (Ascii.eqb a ":"), (Ascii.eqb a "-");
      simpl; congruence. }
  destruct (fromhex_hexdigits 16 _ Hlen Hhex) as (b & Eb & Hb & Lb).
  exists (UUID.Build b name). unfold UUID.from_string. rewrite Eb. simpl.
  repeat split; try assumption.
  rewrite normalize_as_string. simpl. rewrite Hb.
  clear. induction (UUID.normalize s) as [|a t IH]; [reflexivity|].
  simpl. now rewrite lower_char_idem, IH.
Qed.

Lemma from_string_as_string_roundtrip_witness :
  hex_with_separators "0000180F-0000:1000-8000-00:80:5f:9B:34:fb" = true /\
  String.length (UUID.normalize "0000180F-0000:1000-8000-00:80:5f:9B:34:fb") = 32%nat /\
  exists u, UUID.from_string "0000180F-0000:1000-8000-00:80:5f:9B:34:fb" "Battery Service" = Ok u /\
            List.length (UUID.value u) = 16%nat /\
            PyStr.lower (UUID.normalize (UUID.as_string u)) =
              PyStr.lower (UUID.normalize "0000180F-0000:1000-8000-00:80:5f:9B:34:fb") /\
            PyBytes.hex (UUID.value u) =
              PyStr.lower (UUID.normalize "0000180F-0000:1000-8000-00:80:5f:9B:34:fb").
Proof.
  split; [reflexivity|]. split; [reflexivity|].
  apply (from_string_as_string_roundtrip
           "0000180F-0000:1000-8000-00:80:5f:9B:34:fb" "Battery Service");
    reflexivity.
Defined.

Example from_string_battery :
  UUID.from_string "0000180f-0000-1000-8000-00805f9b34fb" "Battery Service"
  = Ok Battery.S_BATTERY /\
  UUID.from_string "00002a19-0000-1000-8000-00805f9b34fb" "Battery Level"
  = Ok Battery.BATT_LEVEL /\
  UUID.as_string Battery.S_BATTERY = "0000180f-0000-1000-8000-00805f9b34fb"%string.
Proof. repeat split; reflexivity. Qed.

(** ** Rendering of 2-byte UUIDs *)

Lemma as_string_short (u : UUID.t) :
  List.length (UUID.value u) = 2%nat ->
  UUID.as_string u = (PyBytes.hex (UUID.value u) ++ "----")%string.
Proof.
  intros Hlen. destruct u as [[|x [|y [|z v]]] n]; try discriminate. reflexivity.
Qed.

(** C10: for a 2-byte UUID, [as_string] is the four lower-case hex digits of
    its bytes followed by four hyphens, eight characters in all; nothing is
    extended to 128 bits. *)
Theorem as_string_two_bytes (u : UUID.t) :
  List.length (UUID.value u) = 2%nat ->
  UUID.as_string u = (PyBytes.hex (UUID.value u) ++ "----")%string /\
  String.length (PyBytes.hex (UUID.value u)) = 4%nat /\
  PyStr.forallb PyBytes.is_lower_hexdigit (PyBytes.hex (UUID.value u)) = true /\
  String.length (UUID.as_string u) = 8%nat.
Proof.
  intros Hlen. split; [now apply as_string_short|].
  split; [rewrite hex_length, Hlen; reflexivity|].
  split; [apply hex_lower_hexdigits|].
  destruct u as [[|x [|y [|z v]]] n]; try discriminate. reflexivity.
Qed.

Lemma as_string_two_bytes_witness :
  List.length (UUID.value uuid_2902) = 2%nat /\
  UUID.as_string uuid_2902 = (PyBytes.hex (UUID.value uuid_2902) ++ "----")%string /\
  String.length (PyBytes.hex (UUID.value uuid_2902)) = 4%nat /\
  PyStr.forallb PyBytes.is_lower_hexdigit (PyBytes.hex (UUID.value uuid_2902)) = true /\
  String.length (UUID.as_string uuid_2902) = 8%nat.
Proof. split; [reflexivity|apply (as_string_two_bytes uuid_2902); reflexivity]. Defined.

Lemma be_digits_length (len : nat) (n : Z) :
  List.length (PyBytes.be_digits len n) = len.
Proof.
  revert n; induction len as [|len IH]; intros n; simpl; [reflexivity|].
  rewrite length_app, IH. simpl. lia.
Qed.

(** [from_int] with the 2-byte length yields such a UUID for every 16-bit value. *)
Lemma from_int_two_bytes (n : Z) (name : string) :
  0 <= n < 65536 ->
  exists u, UUID.from_int n UuidLength.BIT_8 name = Ok u /\
            List.length (UUID.value u) = 2%nat /\
            UUID.as_string u = (PyBytes.hex (UUID.value u) ++ "----")%string.
Proof.
  intros Hn. unfold UUID.from_int, PyBytes.of_int.
  change (256 ^ Z.of_nat (UuidLength.to_nat UuidLength.BIT_8)) with 65536.
  destruct (Z.ltb_spec n 0); [lia|]. destruct (Z.leb_spec 65536 n); [lia|].
  simpl orb. cbv iota. cbn [rbind]. eexists. split; [reflexivity|].
  assert (List.length (PyBytes.be_digits (UuidLength.to_nat UuidLength.BIT_8) n) = 2%nat)
    as Hl by apply be_digits_length.
  split; [exact Hl|]. now apply as_string_short.
Qed.

(** ** Characteristic property flags *)

Lemma contains_single_bit (props : Z) (k : Z) :
  0 <= k -> CharProps.contains props (2 ^ k) = Z.testbit props k.
Proof.
  intros Hk. unfold CharProps.contains.
  destruct (Z.testbit props k) eqn:E.
  - apply Z.eqb_eq, Z.bits_inj'. intros n Hn.
    rewrite Z.land_spec, Z.pow2_bits_eqb by exact Hk.
    destruct (Z.eqb_spec k n) as [->|_]; [now rewrite E|reflexivity].
  - apply Z.eqb_neq. intros H.
    assert (Z.testbit (Z.land (2 ^ k) props) k = Z.testbit (2 ^ k) k) as Hb
      by now rewrite H.
    rewrite Z.land_spec, E, andb_false_r, Z.pow2_bits_true in Hb by exact Hk.
    discriminate.
Qed.

(** C4: [is_readable] is true exactly when the NOTIFY bit (0x10) of the
    property mask is set; it coincides with [is_notifiable] and does not
    follow the READ bit (0x02). *)
Theorem is_readable_tests_notify :
  (forall c, Characteristic.is_readable c = true <->
             Z.land CharProps.NOTIFY (Characteristic.props c) = CharProps.NOTIFY) /\
  (forall c, Characteristic.is_readable c = Z.testbit (Characteristic.props c) 4) /\
  (forall c, Characteristic.is_readable c = Characteristic.is_notifiable c) /\
  (exists c, CharProps.contains (Characteristic.props c) CharProps.READ = true /\
             Characteristic.is_readable c = false) /\
  (exists c, CharProps.contains (Characteristic.props c) CharProps.READ = false /\
             Characteristic.is_readable c = true).
Proof.
  split; [|split; [|split; [|split]]].
  - intros c. unfold Characteristic.is_readable, CharProps.contains. apply Z.eqb_eq.
  - intros c. unfold Characteristic.is_readable.
    change CharProps.NOTIFY with (2 ^ 4). now apply contains_single_bit.
  - reflexivity.
  - exists (Characteristic.make 1 2 uuid_2902 CharProps.READ "" None []).
    split; reflexivity.
  - exists (Characteristic.make 1 2 uuid_2902 CharProps.NOTIFY "" None []).
    split; reflexivity.
Qed.

(** ** The registry guard *)

(** C9, as the code has it: every call of the registry class fails and
    returns no instance.  The call without arguments raises the guard's
    exception, with the message "This class shall not be instantiated"; a
    call with any positional or keyword argument is refused with
    [TypeError], because [__new__] takes no argument besides the class. *)
Theorem UUIDs_call_never_returns
    (args : list UUID.operand) (kwargs : list (string * UUID.operand)) :
  (forall i, UUIDs.call_with args kwargs <> Ok i) /\
  (UUIDs.call_with args kwargs =
     Raise (Exception "This class shall not be instantiated") <->
   args = [] /\ kwargs = []) /\
  (UUIDs.call_with args kwargs = Raise TypeError <-> args <> [] \/ kwargs <> []).
Proof.
  destruct args as [|a args], kwargs as [|kw kwargs]; cbn [UUIDs.call_with];
    (split; [intros i H; discriminate H|]); split; split;
    try discriminate; try reflexivity; try tauto;
    try (intros [H|H]; congruence); try (intros [H1 H2]; discriminate);
    try (intros _; left; discriminate); try (intros _; right; discriminate).
Qed.

(** C9 as stated fails: not every attempt ends in the guard's exception (a
    call with an argument ends in [TypeError]), and an instance can be
    produced, by [object.__new__(UUIDs)], which does not run the guard. *)
Lemma UUIDs_attempts_beyond_the_guard :
  UUIDs.instantiate (UUIDs.Call [] []) =
    Raise (Exception "This class shall not be instantiated") /\
  UUIDs.instantiate (UUIDs.Call [UUID.VInt 1] []) = Raise TypeError /\
  UUIDs.instantiate UUIDs.ObjectNew = Ok UUIDs.Instance /\
  ~ (forall a, exists msg, UUIDs.instantiate a = Raise (Exception msg)) /\
  ~ (forall a i, UUIDs.instantiate a <> Ok i).
Proof.
  split; [reflexivity|]. split; [reflexivity|]. split; [reflexivity|]. split.
  - intros H. destruct (H UUIDs.ObjectNew) as [msg Hm]. discriminate Hm.
  - intros H. exact (H UUIDs.ObjectNew UUIDs.Instance eq_refl).
Qed.

(** ** CSV dump *)

Lemma dump_descriptors_extends (w : GattDB.writer) (ds : list Descriptor.t) :
  exists rows, fst (GattDB.dump_descriptors w ds) = w ++ rows.
Proof.
  revert w; induction ds as [|d ds IH]; intros w; simpl.
  - exists []. now rewrite app_nil_r.
  - destruct (GattDB.descriptor_row d) as [r|e].
    + destruct (IH (GattDB.writerow w r)) as [rows ->].
      exists (r :: rows). unfold GattDB.writerow. now rewrite <- app_assoc.
    + exists []. now rewrite app_nil_r.
Qed.

Lemma dump_chars_extends (w : GattDB.writer) (cs : list Characteristic.t) :
  exists rows, fst (GattDB.dump_chars w cs) = w ++ rows.
Proof.
  revert w; induction cs as [|c cs IH]; intros w; simpl.
  - exists []. now rewrite app_nil_r.
  - destruct (dump_descriptors_extends
                (GattDB.writerow (GattDB.writerow w (GattDB.declaration_row c))
                   (GattDB.value_row c))
                (Dict.values (Characteristic.descriptors c))) as [rows Hd].
    destruct (GattDB.dump_descriptors _ _) as [w3 [u|e]]; simpl in Hd; subst w3.
    + destruct (IH ((GattDB.writerow (GattDB.writerow w (GattDB.declaration_row c))
                       (GattDB.value_row c)) ++ rows)) as [rows' ->].
      unfold GattDB.writerow. rewrite <- !app_assoc. eauto.
    + simpl. unfold GattDB.writerow. rewrite <- !app_assoc. eauto.
Qed.

Lemma dump_services_extends (w : GattDB.writer) (ss : list Service.t) :
  exists rows, fst (GattDB.dump_services w ss) = w ++ rows.
Proof.
  revert w; induction ss as [|s ss IH]; intros w; simpl.
  - exists []. now rewrite app_nil_r.
  - destruct (dump_chars_extends (GattDB.writerow w (GattDB.service_row s))
                (Dict.values (Service.chars s))) as [rows Hd].
    destruct (GattDB.dump_chars _ _) as [w2 [u|e]]; simpl in Hd; subst w2.
    + destruct (IH (GattDB.writerow w (GattDB.service_row s) ++ rows)) as [rows' ->].
      unfold GattDB.writerow. rewrite <- !app_assoc. eauto.
    + simpl. unfold GattDB.writerow. rewrite <- !app_assoc. eauto.
Qed.

(** C2 (code evaluated on every table): the first row written is the header,
    and its third cell is the class object [UUID], whose text is
    "<class '....UUID'>", not the string "uuid"; the other four cells are
    the strings the claim names. *)
Theorem dump_header_third_cell_is_class (services : GattDB.services_t) :
  (exists rows, fst (GattDB.dump_to_csv services) = GattDB.header :: rows) /\
  GattDB.header =
    [CStr "handle"; CStr "description"; CType "UUID"; CStr "properties"; CStr "value"] /\
  GattDB.header <>
    [CStr "handle"; CStr "description"; CStr "uuid"; CStr "properties"; CStr "value"] /\
  (forall modname, type_str modname "UUID" <> "uuid"%string).
Proof.
  repeat split.
  - unfold GattDB.dump_to_csv.
    destruct (dump_services_extends (GattDB.writerow [] GattDB.header)
                (Dict.values services)) as [rows ->]. now exists rows.
  - discriminate.
  - intros modname. discriminate.
Qed.

(** C3, as the code has it: a table of one service with one characteristic
    with one descriptor whose UUID is a recognised spec number dumps without
    error as the header and exactly four body rows (service, characteristic
    declaration, characteristic value, descriptor), and the last cell of the
    service row is the string "SERVICE". *)
Theorem dump_single_descriptor_table
    (k : UUID.t) (svc : Service.t) (kc : UUID.t) (C : Characteristic.t)
    (kd : UUID.t) (D : Descriptor.t) (m : SpecUuidNumber.t) :
  Service.chars svc = [(kc, C)] ->
  Characteristic.descriptors C = [(kd, D)] ->
  SpecUuidNumber.of_int (UUID.as_int (Descriptor.uuid D)) = Ok m ->
  GattDB.dump_to_csv [(k, svc)] =
    ([GattDB.header;
      GattDB.service_row svc;
      GattDB.declaration_row C;
      GattDB.value_row C;
      [CInt (Descriptor.handle D); CStr (SpecUuidNumber.name m);
       CStr (UUID.as_string (Descriptor.uuid D)); CStr "";
       cell_of_value (Descriptor.value D)]], Ok tt) /\
  List.length (GattDB.body (fst (GattDB.dump_to_csv [(k, svc)]))) = 4%nat /\
  nth_error (GattDB.service_row svc) 4 = Some (CStr "SERVICE").
Proof.
  intros HS HC HD.
  assert (GattDB.dump_to_csv [(k, svc)] =
    ([GattDB.header;
      GattDB.service_row svc;
      GattDB.declaration_row C;
      GattDB.value_row C;
      [CInt (Descriptor.handle D); CStr (SpecUuidNumber.name m);
       CStr (UUID.as_string (Descriptor.uuid D)); CStr "";
       cell_of_value (Descriptor.value D)]], Ok tt)) as E.
  { unfold GattDB.dump_to_csv. simpl. rewrite HS. simpl. rewrite HC. simpl.
    unfold GattDB.descriptor_row. rewrite HD. reflexivity. }
  rewrite E. repeat split.
Qed.

Lemma dump_single_descriptor_table_witness :
  Service.chars Battery.service = [(Battery.BATT_LEVEL, Battery.level)] /\
  Characteristic.descriptors Battery.level = [(uuid_2902, Battery.cccd)] /\
  SpecUuidNumber.of_int (UUID.as_int (Descriptor.uuid Battery.cccd)) =
    Ok SpecUuidNumber.CLIENT_CHAR_CONFIG /\
  GattDB.dump_to_csv Battery.db =
    ([GattDB.header;
      GattDB.service_row Battery.service;
      GattDB.declaration_row Battery.level;
      GattDB.value_row Battery.level;
      [CInt (Descriptor.handle Battery.cccd);
       CStr (SpecUuidNumber.name SpecUuidNumber.CLIENT_CHAR_CONFIG);
       CStr (UUID.as_string (Descriptor.uuid Battery.cccd)); CStr "";
       cell_of_value (Descriptor.value Battery.cccd)]], Ok tt) /\
  List.length (GattDB.body (fst (GattDB.dump_to_csv Battery.db))) = 4%nat /\
  nth_error (GattDB.service_row Battery.service) 4 = Some (CStr "SERVICE").
Proof.
  split; [reflexivity|]. split; [reflexivity|]. split; [reflexivity|].
  apply (dump_single_descriptor_table Battery.S_BATTERY Battery.service
           Battery.BATT_LEVEL Battery.level uuid_2902 Battery.cccd
           SpecUuidNumber.CLIENT_CHAR_CONFIG); reflexivity.
Defined.

(** A descriptor whose UUID is not a spec number stops the dump with
    [ValueError] after the rows written so far. *)
Example dump_unrecognised_descriptor :
  GattDB.dump_to_csv
    [(Battery.S_BATTERY,
      Service.make Battery.S_BATTERY 0x0010 "Battery Service" 0xFFFF
        [(Battery.BATT_LEVEL,
          Characteristic.make 0x0012 0x0011 Battery.BATT_LEVEL 0x12 "Battery Level" None
            [(Battery.BATT_LEVEL, Descriptor.Build 0x0013 Battery.BATT_LEVEL None)])])]
  = ([GattDB.header; GattDB.service_row Battery.service;
      GattDB.declaration_row Battery.level; GattDB.value_row Battery.level],
     Raise ValueError).
Proof. reflexivity. Qed.

(** C3 as stated fails on the Battery scenario: the dump has four body rows,
    the second being the characteristic declaration row, so it does not
    consist of exactly three. *)
Lemma dump_battery_not_three_rows :
  snd (GattDB.dump_to_csv Battery.db) = Ok tt /\
  GattDB.body (fst (GattDB.dump_to_csv Battery.db)) =
    [ [CInt 0x0010; CSpec SpecUuidNumber.PRIMARY_SERVICE;
       CStr "0000180f-0000-1000-8000-00805f9b34fb"; CStr "Battery Service";
       CStr "SERVICE"];
      [CInt 0x0011; CSpec SpecUuidNumber.CHAR_DECLARATION; CStr "28:03";
       CPropsStr 0x12; CStr ""];
      [CInt 0x0012; CStr "Battery Level";
       CStr "00002a19-0000-1000-8000-00805f9b34fb"; CStr ""; CNone];
      [CInt 0x0013; CStr "CLIENT_CHAR_CONFIG"; CStr "2902----"; CStr "";
       CBytes [x01; x00]] ] /\
  List.length (GattDB.body (fst (GattDB.dump_to_csv Battery.db))) <> 3%nat.
Proof. repeat split. discriminate. Qed.

(** ** Lookups over the flattened table *)

Lemma scan_chars_find (p : Characteristic.t -> bool) (cs : list Characteristic.t) :
  GattDB.scan_chars p cs = find p cs.
Proof. induction cs as [|c cs IH]; simpl; [reflexivity|now rewrite IH]. Qed.

Lemma find_app_split {A} (p : A -> bool) (l1 l2 : list A) :
  find p (l1 ++ l2) = match find p l1 with Some x => Some x | None => find p l2 end.
Proof. induction l1 as [|x l1 IH]; simpl; [reflexivity|]. now destruct (p x). Qed.

(** The nested scan is a first-match search of the flattened values. *)
Lemma scan_find (p : Characteristic.t -> bool) (services : GattDB.services_t) :
  GattDB.scan p (Dict.values services) =
  find p (GattDB.CharacteristicView.values services).
Proof.
  unfold GattDB.CharacteristicView.values.
  induction (Dict.values services) as [|s ss IH]; simpl; [reflexivity|].
  now rewrite find_app_split, scan_chars_find, IH.
Qed.

Lemma in_view_values (services : GattDB.services_t) (svc : Service.t)
    (c : Characteristic.t) :
  In svc (Dict.values services) -> In c (Dict.values (Service.chars svc)) ->
  In c (GattDB.CharacteristicView.values services).
Proof.
  intros Hs Hc. unfold GattDB.CharacteristicView.values.
  apply in_flat_map. now exists svc.
Qed.

Lemma find_unique {A B} (f : A -> B) (p : A -> bool) (l : list A) (x : A) :
  List.NoDup (map f l) -> In x l ->
  (forall y, In y l -> p y = true <-> f y = f x) ->
  find p l = Some x.
Proof.
  induction l as [|y l IH]; simpl; [tauto|].
  intros Hnd Hin Hp. apply NoDup_cons_iff in Hnd as [Hy Hnd].
  destruct Hin as [->|Hin].
  - now rewrite (proj2 (Hp x (or_introl eq_refl)) eq_refl).
  - destruct (p y) eqn:Epy.
    + apply (Hp y (or_introl eq_refl)) in Epy. exfalso. apply Hy.
      rewrite Epy. now apply in_map.
    + apply IH; auto.
Qed.

(** C5: in a table whose value handles and whose characteristic UUIDs are
    pairwise distinct, every characteristic [c] of every service satisfies
    [handle2uuid(c.handle) == c.uuid] and [uuid2handle(c.uuid) == c.handle]. *)
Theorem handle_uuid_roundtrip (db : GattDB.services_t) (svc : Service.t)
    (c : Characteristic.t) :
  In svc (Dict.values db) ->
  In c (Dict.values (Service.chars svc)) ->
  List.NoDup (map Characteristic.handle (GattDB.CharacteristicView.values db)) ->
  List.NoDup (map (fun x => UUID.value (Characteristic.uuid x))
           (GattDB.CharacteristicView.values db)) ->
  (exists u, GattDB.handle2uuid db (Characteristic.handle c) = Ok u /\
             UUID.eq u (UUID.VUUID (Characteristic.uuid c)) = true) /\
  GattDB.uuid2handle db (Characteristic.uuid c) = Ok (Characteristic.handle c).
Proof.
  intros Hs Hc Hh Hu.
  pose proof (in_view_values db svc c Hs Hc) as Hin. split.
  - exists (Characteristic.uuid c). unfold GattDB.handle2uuid.
    rewrite scan_find.
    rewrite (find_unique Characteristic.handle _ _ c Hh Hin).
    + split; [reflexivity|]. simpl. apply bytes_eqb_refl.
    + intros y _. apply Z.eqb_eq.
  - unfold GattDB.uuid2handle, GattDB.CharacteristicView.getitem.
    rewrite scan_find.
    rewrite (find_unique (fun x => UUID.value (Characteristic.uuid x)) _ _ c Hu Hin).
    + reflexivity.
    + intros y _. simpl. apply bytes_eqb_eq.
Qed.

Lemma handle_uuid_roundtrip_witness :
  In Battery.service (Dict.values Battery.db) /\
  In Battery.level (Dict.values (Service.chars Battery.service)) /\
  List.NoDup (map Characteristic.handle (GattDB.CharacteristicView.values Battery.db)) /\
  List.NoDup (map (fun x => UUID.value (Characteristic.uuid x))
           (GattDB.CharacteristicView.values Battery.db)) /\
  (exists u, GattDB.handle2uuid Battery.db 0x0012 = Ok u /\
             UUID.eq u (UUID.VUUID Battery.BATT_LEVEL) = true) /\
  GattDB.uuid2handle Battery.db Battery.BATT_LEVEL = Ok 0x0012.
Proof.
  assert (In Battery.service (Dict.values Battery.db)) as H1 by (left; reflexivity).
  assert (In Battery.level (Dict.values (Service.chars Battery.service))) as H2
    by (left; reflexivity).
  assert (List.NoDup (map Characteristic.handle
                   (GattDB.CharacteristicView.values Battery.db))) as H3
    by (repeat constructor; simpl; tauto).
  assert (List.NoDup (map (fun x => UUID.value (Characteristic.uuid x))
                   (GattDB.CharacteristicView.values Battery.db))) as H4
    by (repeat constructor; simpl; tauto).
  repeat (split; [assumption|]).
  exact (handle_uuid_roundtrip Battery.db Battery.service Battery.level H1 H2 H3 H4).
Defined.

(** ** The CCCD handle *)

Lemma getitem_absent (d : Dict.t UUID.t Descriptor.t) (k : UUID.t) :
  keyed_by_uuid d ->
  (forall x, In x (Dict.values d) -> UUID.value (Descriptor.uuid x) <> UUID.value k) ->
  Dict.getitem UUID.eqb d k = Raise KeyError.
Proof.
  induction d as [|[k0 v0] d IH]; simpl; [reflexivity|].
  intros Hk Hno. apply Forall_cons_iff in Hk as [Hk0 Hk].
  destruct (UUID.eqb k0 k) eqn:E.
  - exfalso. apply (Hno v0 (or_introl eq_refl)).
    simpl in Hk0. apply bytes_eqb_eq in Hk0. apply bytes_eqb_eq in E. congruence.
  - apply IH; auto.
Qed.

Lemma getitem_present (d : Dict.t UUID.t Descriptor.t) (k : UUID.t) (x : Descriptor.t) :
  Dict.wf UUID.eqb d -> keyed_by_uuid d ->
  In x (Dict.values d) -> UUID.value (Descriptor.uuid x) = UUID.value k ->
  Dict.getitem UUID.eqb d k = Ok x.
Proof.
  induction d as [|[k0 v0] d IH]; simpl; [tauto|].
  intros [Hfresh Hwf] Hk Hin Hx. apply Forall_cons_iff in Hk as [Hk0 Hk].
  destruct Hin as [->|Hin].
  - simpl in Hk0. apply bytes_eqb_eq in Hk0.
    assert (UUID.eqb k0 k = true) as -> by (apply bytes_eqb_eq; congruence).
    reflexivity.
  - destruct (UUID.eqb k0 k) eqn:E; [|now apply IH].
    exfalso. apply bytes_eqb_eq in E.
    apply in_map_iff in Hin as ([kx vx] & <- & Hin).
    rewrite List.Forall_forall in Hk. specialize (Hk _ Hin). simpl in Hk.
    apply bytes_eqb_eq in Hk.
    assert (Dict.contains UUID.eqb d k0 = true) as Hc.
    { apply existsb_exists. exists (kx, vx). split; [exact Hin|].
      apply bytes_eqb_eq. simpl in *. congruence. }
    congruence.
Qed.

(** C7, as the code has it: on a characteristic whose descriptor mapping
    stores every descriptor under its own UUID (the mapping being a dict,
    its keys are distinct), [cccd_handle] raises [KeyError] when no
    descriptor has the 2-byte UUID 0x2902, and returns the handle of the
    descriptor that has it when there is one. *)
Theorem cccd_handle_spec (c : Characteristic.t) :
  Dict.wf UUID.eqb (Characteristic.descriptors c) ->
  keyed_by_uuid (Characteristic.descriptors c) ->
  ((forall d, In d (Dict.values (Characteristic.descriptors c)) ->
              UUID.value (Descriptor.uuid d) <> cccd_bytes) ->
   Characteristic.cccd_handle c = Raise KeyError) /\
  (forall d, In d (Dict.values (Characteristic.descriptors c)) ->
             UUID.value (Descriptor.uuid d) = cccd_bytes ->
             Characteristic.cccd_handle c = Ok (Descriptor.handle d)).
Proof.
  intros Hwf Hk. unfold Characteristic.cccd_handle.
  change Characteristic.cccd_key with (Ok uuid_2902). cbn [rbind]. split.
  - intros Hno. now rewrite (getitem_absent _ uuid_2902 Hk Hno).
  - intros d Hin Hd. now rewrite (getitem_present _ uuid_2902 d Hwf Hk Hin Hd).
Qed.

Lemma cccd_handle_spec_witness :
  Dict.wf UUID.eqb (Characteristic.descriptors Battery.level) /\
  keyed_by_uuid (Characteristic.descriptors Battery.level) /\
  Characteristic.cccd_handle Battery.level = Ok 0x0013 /\
  Characteristic.cccd_handle
    (Characteristic.make 0x0012 0x0011 Battery.BATT_LEVEL CharProps.READ "" None [])
  = Raise KeyError.
Proof.
  assert (Dict.wf UUID.eqb (Characteristic.descriptors Battery.level)) as H1
    by (simpl; auto).
  assert (keyed_by_uuid (Characteristic.descriptors Battery.level)) as H2
    by (repeat constructor).
  split; [exact H1|]. split; [exact H2|]. split.
  - apply (proj2 (cccd_handle_spec Battery.level H1 H2) Battery.cccd).
    + left; reflexivity.
    + reflexivity.
  - apply (proj1 (cccd_handle_spec
                    (Characteristic.make 0x0012 0x0011 Battery.BATT_LEVEL
                       CharProps.READ "" None []) I (List.Forall_nil _))).
    intros d [].
Defined.

(** C7 as stated fails on a mapping that is not keyed by the descriptors'
    own UUIDs, because the lookup goes by key: with the CCCD (handle 20)
    stored under 0x2901 and another descriptor (handle 119) under 0x2902,
    [cccd_handle] returns 119; and with no CCCD at all but a descriptor
    under the key 0x2902 it returns that descriptor's handle instead of
    raising. *)
Lemma cccd_handle_miskeyed :
  Dict.wf UUID.eqb (Characteristic.descriptors Miskeyed.char) /\
  In Miskeyed.cccd (Dict.values (Characteristic.descriptors Miskeyed.char)) /\
  UUID.value (Descriptor.uuid Miskeyed.cccd) = cccd_bytes /\
  Descriptor.handle Miskeyed.cccd = 20 /\
  Characteristic.cccd_handle Miskeyed.char = Ok 119 /\
  (forall d, In d (Dict.values (Characteristic.descriptors Miskeyed.char_without_cccd)) ->
             UUID.value (Descriptor.uuid d) <> cccd_bytes) /\
  Characteristic.cccd_handle Miskeyed.char_without_cccd = Ok 119 /\
  ~ (forall c,
       ((forall d, In d (Dict.values (Characteristic.descriptors c)) ->
                   UUID.value (Descriptor.uuid d) <> cccd_bytes) ->
        Characteristic.cccd_handle c = Raise KeyError) /\
       (forall d, In d (Dict.values (Characteristic.descriptors c)) ->
                  UUID.value (Descriptor.uuid d) = cccd_bytes ->
                  Characteristic.cccd_handle c = Ok (Descriptor.handle d))).
Proof.
  assert (In Miskeyed.cccd (Dict.values (Characteristic.descriptors Miskeyed.char)))
    as Hin by (left; reflexivity).
  split; [simpl; auto|]. split; [exact Hin|]. split; [reflexivity|].
  split; [reflexivity|]. split; [reflexivity|]. split.
  - intros d [<-|[]]. discriminate.
  - split; [reflexivity|]. intros H.
    destruct (H Miskeyed.char) as [_ H2].
    specialize (H2 Miskeyed.cccd Hin eq_refl). discriminate H2.
Qed.

(** ** The live characteristic view *)

Lemma len_values (ss : GattDB.services_t) :
  GattDB.CharacteristicView.len ss =
  Z.of_nat (List.length (GattDB.CharacteristicView.values ss)).
Proof.
  unfold GattDB.CharacteristicView.len, GattDB.CharacteristicView.values.
  induction (Dict.values ss) as [|s l IH]; simpl; [reflexivity|].
  rewrite IH, length_app. unfold Dict.len, Dict.values. rewrite length_map. lia.
Qed.


Lemma setitem_in {V} (d : Dict.t UUID.t V) (k : UUID.t) (v : V) :
  In v (Dict.values (Dict.setitem UUID.eqb d k v)).
Proof.
  induction d as [|[k0 v0] d IH]; simpl; [now left|].
  destruct (UUID.eqb k0 k); simpl; auto.
Qed.

Lemma setitem_values_sub {V} (d : Dict.t UUID.t V) (k : UUID.t) (v x : V) :
  In x (Dict.values (Dict.setitem UUID.eqb d k v)) ->
  In x (Dict.values d) \/ x = v.
Proof.
  induction d as [|[k0 v0] d IH]; simpl.
  - intros [<-|[]]. now right.
  - destruct (UUID.eqb k0 k); simpl.
    + intros [<-|H]; auto.
    + intros [<-|H]; auto. destruct (IH H); auto.
Qed.

Section StoreFacts.
Import Store.

Lemma read_service_weaken (h h' : gmap ref obj) (r : ref) (svc : Service.t) :
  h ⊆ h' -> read_service h r = Some svc -> read_service h' r = Some svc.
Proof.
  intros Hsub. unfold read_service.
  destruct (h !! r) as [[| u a n e cm | | |]|] eqn:Er; try discriminate.
  rewrite (lookup_weaken _ _ _ _ Er Hsub).
  destruct (h !! cm) as [[| | d | |]|] eqn:Ec; try discriminate.
  now rewrite (lookup_weaken _ _ _ _ Ec Hsub).
Qed.

Lemma read_entries_weaken (h h' : gmap ref obj) (d : Dict.t UUID.t ref)
    (ss : GattDB.services_t) :
  h ⊆ h' -> read_entries h d = Some ss -> read_entries h' d = Some ss.
Proof.
  intros Hsub. revert ss. induction d as [|[k r] d IH]; simpl; [auto|].
  intros ss. destruct (read_service h r) as [svc|] eqn:Er; [|discriminate].
  rewrite (read_service_weaken _ _ _ _ Hsub Er).
  destruct (read_entries h d) as [rest|]; [|discriminate].
  now rewrite (IH rest eq_refl).
Qed.

Lemma read_services_weaken (h h' : gmap ref obj) (sm : ref)
    (ss : GattDB.services_t) :
  h ⊆ h' -> read_services h sm = Some ss -> read_services h' sm = Some ss.
Proof.
  intros Hsub. unfold read_services.
  destruct (h !! sm) as [[d| | | |]|] eqn:E; try discriminate.
  rewrite (lookup_weaken _ _ _ _ E Hsub). now apply read_entries_weaken.
Qed.

Lemma fresh_unused (h : gmap ref obj) : h !! fresh (dom h) = None.
Proof. apply not_elem_of_dom, is_fresh. Qed.

Lemma alloc_subseteq (h : gmap ref obj) (o : obj) : h ⊆ fst (alloc h o).
Proof. simpl. apply insert_subseteq, fresh_unused. Qed.

Lemma add_char_inv (h h' : gmap ref obj) (s : ref) (key : UUID.t)
    (char : Characteristic.t) :
  add_char h s key char = Some h' ->
  exists u a n e cm d0,
    h !! s = Some (ServiceObj u a n e cm) /\ h !! cm = Some (CharMap d0) /\
    h' = <[cm := CharMap (Dict.setitem UUID.eqb d0 key char)]> h.
Proof.
  unfold add_char.
  destruct (h !! s) as [[| u a n e cm | | |]|] eqn:Es; try discriminate.
  destruct (h !! cm) as [[| | d0 | |]|] eqn:Ec; try discriminate.
  intros [= <-]. now exists u, a, n, e, cm, d0.
Qed.

(** Replacing the contents of a characteristic dict: every service object
    is still readable, with either its old characteristics or the new dict. *)
Lemma read_service_set_chars (h : gmap ref obj) (cm : ref)
    (d0 d1 : Dict.t UUID.t Characteristic.t) (r : ref) (svc : Service.t) :
  h !! cm = Some (CharMap d0) ->
  read_service h r = Some svc ->
  exists svc', read_service (<[cm := CharMap d1]> h) r = Some svc' /\
    ((Service.chars svc' = Service.chars svc) \/
     (Service.chars svc = d0 /\ Service.chars svc' = d1)) /\
    (forall u a n e, h !! r = Some (ServiceObj u a n e cm) -> Service.chars svc' = d1).
Proof.
  intros Hcm. unfold read_service.
  destruct (h !! r) as [[| u a n e c | | |]|] eqn:Er; try discriminate.
  assert (r <> cm) as Hne by congruence.
  rewrite lookup_insert_ne by congruence. rewrite Er.
  destruct (decide (c = cm)) as [->|Hc].
  - rewrite lookup_insert_eq, Hcm. intros [= <-]. eexists. split; [reflexivity|].
    split; [right; split; reflexivity|reflexivity].
  - rewrite lookup_insert_ne by congruence.
    destruct (h !! c) as [[| | d | |]|] eqn:Ec; try discriminate.
    intros [= <-]. eexists. split; [reflexivity|]. split; [now left|].
    intros u' a' n' e' [= _ _ _ _ Hcc]. contradiction.
Qed.

Lemma read_entries_set_chars (h : gmap ref obj) (cm : ref)
    (d0 : Dict.t UUID.t Characteristic.t) (key : UUID.t) (char : Characteristic.t)
    (d : Dict.t UUID.t ref) (ss : GattDB.services_t) :
  h !! cm = Some (CharMap d0) ->
  read_entries h d = Some ss ->
  exists ss',
    read_entries (<[cm := CharMap (Dict.setitem UUID.eqb d0 key char)]> h) d = Some ss' /\
    (forall c, In c (GattDB.CharacteristicView.values ss') ->
               In c (GattDB.CharacteristicView.values ss) \/ c = char) /\
    (forall s u a n e, In s (Dict.values d) ->
                       h !! s = Some (ServiceObj u a n e cm) ->
                       In char (GattDB.CharacteristicView.values ss')).
Proof.
  intros Hcm. revert ss. induction d as [|[k r] d IH]; intros ss; simpl.
  - intros [= <-]. exists []. split; [reflexivity|]. split; [intros c []|].
    intros s u a n e [].
  - destruct (read_service h r) as [svc|] eqn:Er; [|discriminate].
    destruct (read_entries h d) as [rest|] eqn:Ed; [|discriminate].
    intros [= <-].
    destruct (read_service_set_chars h cm d0 (Dict.setitem UUID.eqb d0 key char)
                r svc Hcm Er) as (svc' & Er' & Hch & Hhit).
    destruct (IH rest eq_refl) as (rest' & Ed' & Hsub & Hnew).
    rewrite Er', Ed'. exists ((k, svc') :: rest'). split; [reflexivity|].
    unfold GattDB.CharacteristicView.values in *. simpl. split.
    + intros c [Hc|Hc]%in_app_or.
      * destruct Hch as [Hch|[Hold Hch]]; rewrite Hch in Hc.
        -- left. apply in_or_app. now left.
        -- apply setitem_values_sub in Hc as [Hc|Hc]; [|now right].
           left. apply in_or_app. left. now rewrite Hold.
      * destruct (Hsub c Hc) as [H|H]; [|now right].
        left. apply in_or_app. now right.
    + intros s u a n e [<-|Hs] Hobj; apply in_or_app.
      * left. rewrite (Hhit _ _ _ _ Hobj). apply setitem_in.
      * right. now apply (Hnew s u a n e).
Qed.

(** Replacing a service mapping does not change what any service reads as. *)
Lemma read_service_set_map (h : gmap ref obj) (x : ref)
    (dx dx' : Dict.t UUID.t ref) (r : ref) :
  h !! x = Some (ServiceMap dx) ->
  read_service (<[x := ServiceMap dx']> h) r = read_service h r.
Proof.
  intros Hx. unfold read_service.
  destruct (decide (r = x)) as [->|Hr].
  - now rewrite lookup_insert_eq, Hx.
  - rewrite lookup_insert_ne by congruence.
    destruct (h !! r) as [[| u a n e c | | |]|]; try reflexivity.
    destruct (decide (c = x)) as [->|Hc].
    + now rewrite lookup_insert_eq, Hx.
    + now rewrite lookup_insert_ne by congruence.
Qed.

Lemma read_entries_set_map (h : gmap ref obj) (x : ref)
    (dx dx' : Dict.t UUID.t ref) (d : Dict.t UUID.t ref) :
  h !! x = Some (ServiceMap dx) ->
  read_entries (<[x := ServiceMap dx']> h) d = read_entries h d.
Proof.
  intros Hx. induction d as [|[k r] d IH]; simpl; [reflexivity|].
  now rewrite (read_service_set_map h x dx dx' r Hx), IH.
Qed.

Lemma read_entries_setitem (h : gmap ref obj) (d : Dict.t UUID.t ref)
    (key : UUID.t) (r : ref) (ss : GattDB.services_t) (svc : Service.t) :
  read_entries h d = Some ss -> read_service h r = Some svc ->
  exists ss', read_entries h (Dict.setitem UUID.eqb d key r) = Some ss'.
Proof.
  intros Hd Hr. revert ss Hd. induction d as [|[k0 r0] d IH]; intros ss; simpl.
  - intros _. rewrite Hr. eauto.
  - destruct (read_service h r0) as [s0|] eqn:E0; [|discriminate].
    destruct (read_entries h d) as [rest|] eqn:Ed; [|discriminate].
    intros _. destruct (UUID.eqb k0 key); simpl.
    + rewrite Hr, Ed. eauto.
    + rewrite E0. destruct (IH rest eq_refl) as [ss' ->]. eauto.
Qed.
End StoreFacts.

Section LiveView.
Import Store.

Lemma view_services_linked (h : gmap ref obj) (sm db view : ref) :
  linked h sm db view -> view_services h view = read_services h sm.
Proof. intros (Hv & Hd & _). unfold view_services. now rewrite Hv, Hd. Qed.


Lemma mutation_linked (h h' : gmap ref obj) (sm db view : ref) :
  linked h sm db view -> mutation h h' -> linked h' sm db view.
Proof.
  intros (Hv & Hd & [ss Hss]) Hm. destruct Hm as [h s key char h' Ha|h sm2 key s h' Ha].
  - apply add_char_inv in Ha as (u & a & n & e & cm & d0 & Hs & Hcm & ->).
    split; [|split].
    + rewrite lookup_insert_ne by congruence. exact Hv.
    + rewrite lookup_insert_ne by congruence. exact Hd.
    + unfold readable, read_services in *.
      destruct (h !! sm) as [[d| | | |]|] eqn:Esm; try discriminate.
      rewrite lookup_insert_ne by congruence. rewrite Esm.
      destruct (read_entries_set_chars h cm d0 key char d ss Hcm Hss) as (ss' & E & _).
      eauto.
  - unfold add_service, alloc in Ha.
    destruct (h !! sm2) as [[d2| | | |]|] eqn:E2; try discriminate.
    injection Ha as <-.
    set (cm := fresh (dom h)) in *.
    set (h1 := <[cm := CharMap (Service.chars s)]> h) in *.
    set (r := fresh (dom h1)) in *.
    set (o := ServiceObj (Service.uuid s) (Service.start_handle s) (Service.name s)
                (Service.end_handle s) cm) in *.
    set (h2 := <[r := o]> h1) in *.
    assert (h !! cm = None) as Hcm by apply fresh_unused.
    assert (h1 !! r = None) as Hr by apply fresh_unused.
    assert (h ⊆ h1) as S1 by now apply insert_subseteq.
    assert (h1 ⊆ h2) as S2 by now apply insert_subseteq.
    assert (h ⊆ h2) as S12 by (etrans; eassumption).
    pose proof (lookup_weaken _ _ _ _ E2 S12) as E2'.
    split; [|split].
    + rewrite lookup_insert_ne by (intros ->; rewrite (lookup_weaken _ _ _ _ Hv S12) in E2'; discriminate).
      exact (lookup_weaken _ _ _ _ Hv S12).
    + rewrite lookup_insert_ne by (intros ->; rewrite (lookup_weaken _ _ _ _ Hd S12) in E2'; discriminate).
      exact (lookup_weaken _ _ _ _ Hd S12).
    + pose proof (read_services_weaken _ _ _ _ S12 Hss) as Hss2.
      unfold readable, read_services in *.
      destruct (h2 !! sm) as [[d| | | |]|] eqn:Esm; try discriminate.
      destruct (decide (sm = sm2)) as [->|Hne].
      * rewrite lookup_insert_eq.
        assert (d = d2) as -> by congruence.
        assert (read_service h2 r = Some s) as Hrs.
        { unfold read_service, h2. rewrite lookup_insert_eq. unfold o.
          assert (r <> cm) as Hrc.
          { intros Heq. unfold h1 in Hr. rewrite Heq, lookup_insert_eq in Hr. discriminate. }
          rewrite lookup_insert_ne by congruence.
          unfold h1. rewrite lookup_insert_eq. now destruct s. }
        destruct (read_entries_setitem h2 d2 key r ss s Hss2 Hrs) as [ss' Hss'].
        exists ss'. now rewrite (read_entries_set_map h2 sm2 d2 _ _ E2').
      * rewrite lookup_insert_ne by congruence. rewrite Esm.
        exists ss. now rewrite (read_entries_set_map h2 sm2 d2 _ _ E2').
Qed.



End LiveView.



(** * Further properties of the module *)

(** ** Integers and bytes *)

Lemma to_int_snoc (b : bytes) (x : byte) :
  PyBytes.to_int (b ++ [x]) = PyBytes.to_int b * 256 + Z.of_N (Byte.to_N x).
Proof. unfold PyBytes.to_int. now rewrite fold_left_app. Qed.

Lemma byte_value_range (x : byte) : 0 <= Z.of_N (Byte.to_N x) < 256.
Proof. pose proof (Byte.to_N_bounded x). lia. Qed.

Lemma byte_of_to_N (x : byte) : PyBytes.byte_of_N (Byte.to_N x) = x.
Proof.
  unfold PyBytes.byte_of_N. pose proof (Byte.to_N_bounded x).
  rewrite N.mod_small by lia. now rewrite Byte.of_to_N.
Qed.

Lemma to_int_range (b : bytes) :
  0 <= PyBytes.to_int b < 256 ^ Z.of_nat (List.length b).
Proof.
  induction b as [|x b IH] using rev_ind; [split; [discriminate|reflexivity]|].
  rewrite to_int_snoc, length_app. simpl List.length.
  replace (Z.of_nat (List.length b + 1)) with (Z.of_nat (List.length b) + 1) by lia.
  rewrite Z.pow_add_r by lia. change (256 ^ 1) with 256.
  pose proof (byte_value_range x). lia.
Qed.

Lemma to_int_be_digits (len : nat) (n : Z) :
  0 <= n -> PyBytes.to_int (PyBytes.be_digits len n) = n mod 256 ^ Z.of_nat len.
Proof.
  revert n; induction len as [|len IH]; intros n Hn.
  - simpl. now rewrite Z.mod_1_r.
  - cbn [PyBytes.be_digits]. rewrite to_int_snoc.
    rewrite IH by (apply Z.div_pos; lia).
    assert (0 <= n mod 256 < 256) as Hm by (apply Z.mod_pos_bound; lia).
    rewrite to_N_byte_of_N by lia. rewrite Z2N.id by lia.
    replace (Z.of_nat (S len)) with (1 + Z.of_nat len) by lia.
    rewrite Z.pow_add_r by lia. change (256 ^ 1) with 256.
    rewrite (Z.rem_mul_r n 256 (256 ^ Z.of_nat len)) by lia. lia.
Qed.

Lemma be_digits_to_int (b : bytes) :
  PyBytes.be_digits (List.length b) (PyBytes.to_int b) = b.
Proof.
  induction b as [|x b IH] using rev_ind; [reflexivity|].
  rewrite length_app, Nat.add_1_r, to_int_snoc. cbn [PyBytes.be_digits].
  pose proof (byte_value_range x) as Hx.
  replace ((PyBytes.to_int b * 256 + Z.of_N (Byte.to_N x)) / 256)
    with (PyBytes.to_int b)
    by (apply Z.div_unique with (Z.of_N (Byte.to_N x)); lia).
  replace ((PyBytes.to_int b * 256 + Z.of_N (Byte.to_N x)) mod 256)
    with (Z.of_N (Byte.to_N x))
    by (apply Z.mod_unique with (PyBytes.to_int b); lia).
  now rewrite IH, N2Z.id, byte_of_to_N.
Qed.

Lemma of_int_in_range (n : Z) (len : nat) :
  0 <= n < 256 ^ Z.of_nat len ->
  PyBytes.of_int n len = Ok (PyBytes.be_digits len n).
Proof.
  intros Hn. unfold PyBytes.of_int.
  destruct (Z.ltb_spec n 0); [lia|]. destruct (Z.leb_spec (256 ^ Z.of_nat len) n); [lia|].
  reflexivity.
Qed.

(** X1: [from_int] followed by [as_int] is the identity on every integer
    that fits the requested width, and the UUID built has exactly that many
    bytes and the given name. *)
Theorem from_int_as_int_roundtrip (n : Z) (length : UuidLength.t) (name : string) :
  0 <= n < 256 ^ Z.of_nat (UuidLength.to_nat length) ->
  exists u, UUID.from_int n length name = Ok u /\
            UUID.as_int u = n /\
            List.length (UUID.value u) = UuidLength.to_nat length /\
            UUID.name u = name.
Proof.
  intros Hn. unfold UUID.from_int. rewrite of_int_in_range by exact Hn.
  eexists. split; [reflexivity|]. cbn [UUID.value UUID.name]. unfold UUID.as_int.
  cbn [UUID.value]. rewrite to_int_be_digits by lia.
  rewrite Z.mod_small by exact Hn. now rewrite be_digits_length.
Qed.

Lemma from_int_as_int_roundtrip_witness :
  0 <= 0x2a19 < 256 ^ Z.of_nat (UuidLength.to_nat UuidLength.BIT_128) /\
  exists u, UUID.from_int 0x2a19 UuidLength.BIT_128 "Battery Level" = Ok u /\
            UUID.as_int u = 0x2a19 /\
            List.length (UUID.value u) = UuidLength.to_nat UuidLength.BIT_128 /\
            UUID.name u = "Battery Level"%string.
Proof.
  split; [split; [discriminate|reflexivity]|].
  apply (from_int_as_int_roundtrip 0x2a19 UuidLength.BIT_128 "Battery Level").
  split; [discriminate|reflexivity].
Defined.

(** X2: [from_int] raises [OverflowError] exactly when the integer is
    negative or needs more bytes than the requested width; no other
    exception leaves it. *)
Theorem from_int_overflow_iff (n : Z) (length : UuidLength.t) (name : string) :
  (UUID.from_int n length name = Raise OverflowError <->
   n < 0 \/ 256 ^ Z.of_nat (UuidLength.to_nat length) <= n) /\
  (forall e, UUID.from_int n length name = Raise e -> e = OverflowError).
Proof.
  unfold UUID.from_int, PyBytes.of_int.
  destruct (Z.ltb_spec n 0) as [Hneg|Hpos];
    destruct (Z.leb_spec (256 ^ Z.of_nat (UuidLength.to_nat length)) n) as [Hbig|Hfit];
    cbn [orb rbind].
  1-3: split; [split; [intros _; lia|reflexivity]|intros e [= <-]; reflexivity].
  split; [split; [discriminate|lia]|discriminate].
Qed.

(** X3: [as_int] is non-negative and below 256 to the number of bytes, and
    re-encoding it at the UUID's own width gives back the same UUID. *)
Theorem as_int_from_int_roundtrip (u : UUID.t) (length : UuidLength.t) :
  List.length (UUID.value u) = UuidLength.to_nat length ->
  0 <= UUID.as_int u < 256 ^ Z.of_nat (UuidLength.to_nat length) /\
  UUID.from_int (UUID.as_int u) length (UUID.name u) = Ok u.
Proof.
  intros Hlen. pose proof (to_int_range (UUID.value u)) as Hr.
  rewrite Hlen in Hr. split; [exact Hr|].
  unfold UUID.from_int, UUID.as_int. rewrite of_int_in_range by exact Hr.
  cbn [rbind]. rewrite <- Hlen, be_digits_to_int. now destruct u.
Qed.

Lemma as_int_from_int_roundtrip_witness :
  List.length (UUID.value Battery.BATT_LEVEL) = UuidLength.to_nat UuidLength.BIT_128 /\
  0 <= UUID.as_int Battery.BATT_LEVEL < 256 ^ Z.of_nat (UuidLength.to_nat UuidLength.BIT_128) /\
  UUID.from_int (UUID.as_int Battery.BATT_LEVEL) UuidLength.BIT_128
    (UUID.name Battery.BATT_LEVEL) = Ok Battery.BATT_LEVEL.
Proof.
  split; [reflexivity|].
  apply (as_int_from_int_roundtrip Battery.BATT_LEVEL UuidLength.BIT_128). reflexivity.
Defined.

(** ** Equality between UUIDs and with other representations *)

(** X4: between two UUIDs, [==] holds exactly when the bytes are the same,
    whatever the names; it is reflexive, symmetric and transitive. *)
Theorem uuid_eq_is_bytes_equality :
  (forall a b, UUID.eq a (UUID.VUUID b) = true <-> UUID.value a = UUID.value b) /\
  (forall v n1 n2, UUID.eq (UUID.Build v n1) (UUID.VUUID (UUID.Build v n2)) = true) /\
  (forall a, UUID.eqb a a = true) /\
  (forall a b, UUID.eqb a b = UUID.eqb b a) /\
  (forall a b c, UUID.eqb a b = true -> UUID.eqb b c = true -> UUID.eqb a c = true).
Proof.
  split; [|split; [|split; [|split]]].
  - intros a b. apply bytes_eqb_eq.
  - intros v n1 n2. apply bytes_eqb_refl.
  - intros a. apply bytes_eqb_refl.
  - intros a b. unfold UUID.eqb, UUID.eq.
    destruct (PyBytes.eqb (UUID.value a) (UUID.value b)) eqn:E1,
             (PyBytes.eqb (UUID.value b) (UUID.value a)) eqn:E2; try reflexivity.
    + apply bytes_eqb_eq in E1. rewrite E1, bytes_eqb_refl in E2. discriminate.
    + apply bytes_eqb_eq in E2. rewrite E2, bytes_eqb_refl in E1. discriminate.
  - intros a b c Hab Hbc. apply bytes_eqb_eq in Hab, Hbc. apply bytes_eqb_eq.
    congruence.
Qed.

(** X5: the 2-byte and the 16-byte UUID built from one 16-bit integer both
    compare equal to that integer, yet they are not equal to each other:
    equality through the integer form does not carry over to the UUIDs. *)
Theorem int_equality_across_widths (n : Z) (name : string) :
  0 <= n < 65536 ->
  exists a b,
    UUID.from_int n UuidLength.BIT_8 name = Ok a /\
    UUID.from_int n UuidLength.BIT_128 name = Ok b /\
    UUID.eq a (UUID.VInt n) = true /\
    UUID.eq b (UUID.VInt n) = true /\
    UUID.eq a (UUID.VUUID b) = false /\
    UUID.eq b (UUID.VUUID a) = false.
Proof.
  intros Hn.
  assert (0 <= n < 256 ^ Z.of_nat (UuidLength.to_nat UuidLength.BIT_8)) as H8
    by (change (256 ^ Z.of_nat (UuidLength.to_nat UuidLength.BIT_8)) with 65536; lia).
  assert (0 <= n < 256 ^ Z.of_nat (UuidLength.to_nat UuidLength.BIT_128)) as H128.
  { assert (65536 < 256 ^ Z.of_nat (UuidLength.to_nat UuidLength.BIT_128)) by reflexivity.
    lia. }
  unfold UUID.from_int. rewrite !of_int_in_range by assumption. cbn [rbind].
  do 2 eexists. split; [reflexivity|]. split; [reflexivity|].
  unfold UUID.eq, UUID.as_int. cbn [UUID.value].
  rewrite !to_int_be_digits by lia. rewrite !Z.mod_small by assumption.
  rewrite Z.eqb_refl. repeat split.
  - destruct (PyBytes.eqb _ _) eqn:E; [|reflexivity].
    apply bytes_eqb_eq in E. apply (f_equal (@List.length byte)) in E.
    rewrite !be_digits_length in E. discriminate E.
  - destruct (PyBytes.eqb _ _) eqn:E; [|reflexivity].
    apply bytes_eqb_eq in E. apply (f_equal (@List.length byte)) in E.
    rewrite !be_digits_length in E. discriminate E.
Qed.

Lemma int_equality_across_widths_witness :
  0 <= 0x2902 < 65536 /\
  exists a b,
    UUID.from_int 0x2902 UuidLength.BIT_8 "" = Ok a /\
    UUID.from_int 0x2902 UuidLength.BIT_128 "" = Ok b /\
    UUID.eq a (UUID.VInt 0x2902) = true /\
    UUID.eq b (UUID.VInt 0x2902) = true /\
    UUID.eq a (UUID.VUUID b) = false /\
    UUID.eq b (UUID.VUUID a) = false.
Proof.
  split; [split; [discriminate|reflexivity]|].
  apply (int_equality_across_widths 0x2902 ""). split; [discriminate|reflexivity].
Defined.

(** X6: a UUID compares equal to a string exactly when the string,
    lower-cased, is the UUID's hyphenated [as_string] rendering; in
    particular it equals its own rendering. *)
Theorem eq_str_iff_rendering (a : UUID.t) :
  (forall s, UUID.eq a (UUID.VStr s) = true <-> PyStr.lower s = UUID.as_string a) /\
  UUID.eq a (UUID.VStr (UUID.as_string a)) = true.
Proof.
  split.
  - intros s. rewrite eq_str_unfold. rewrite String.eqb_eq. split; congruence.
  - rewrite eq_str_unfold. apply String.eqb_eq. symmetry. apply as_string_chars.
Qed.

(** ** Parsing hexadecimal text *)

Lemma fromhex_cons (c : ascii) (s' : string) :
  PyBytes.fromhex (String c s') =
  if PyBytes.is_space c then PyBytes.fromhex s'
  else match PyBytes.digit_value c, s' with
       | Some hi, String d s'' =>
           match PyBytes.digit_value d with
           | Some lo =>
               rbind (PyBytes.fromhex s'')
                 (fun b => Ok (PyBytes.byte_of_N (16 * hi + lo) :: b))
           | None => Raise ValueError
           end
       | _, _ => Raise ValueError
       end.
Proof. reflexivity. Qed.

Lemma hex_digit_parses (v : N) :
  (v < 16)%N ->
  PyBytes.is_space (PyBytes.hex_digit v) = false /\
  PyBytes.digit_value (PyBytes.hex_digit v) = Some v.
Proof.
  intros Hv.
  assert (In (N.to_nat v) (seq 0 16)) as Hin by (apply in_seq; lia).
  assert (forallb (fun n =>
            negb (PyBytes.is_space (PyBytes.hex_digit (N.of_nat n))) &&
            match PyBytes.digit_value (PyBytes.hex_digit (N.of_nat n)) with
            | Some w => (w =? N.of_nat n)%N
            | None => false
            end) (seq 0 16) = true) as Hall by reflexivity.
  rewrite forallb_forall in Hall. specialize (Hall _ Hin). cbv beta in Hall.
  rewrite N2Nat.id in Hall. apply andb_prop in Hall as [Hs Hd].
  split; [now destruct (PyBytes.is_space _)|].
  destruct (PyBytes.digit_value _) as [w|]; [|discriminate].
  apply N.eqb_eq in Hd. now subst.
Qed.

(** [fromhex] undoes [hex]. *)
Lemma fromhex_hex (b : bytes) : PyBytes.fromhex (PyBytes.hex b) = Ok b.
Proof.
  induction b as [|x b IH]; [reflexivity|].
  cbn [PyBytes.hex]. cbv zeta. pose proof (Byte.to_N_bounded x) as Hx.
  assert (Byte.to_N x / 16 < 16)%N as Hhi by (apply N.Div0.div_lt_upper_bound; lia).
  assert (Byte.to_N x mod 16 < 16)%N as Hlo by (apply N.mod_upper_bound; discriminate).
  destruct (hex_digit_parses _ Hhi) as [Hs1 Hd1].
  destruct (hex_digit_parses _ Hlo) as [_ Hd2].
  rewrite fromhex_cons, Hs1, Hd1, Hd2, IH. cbn [rbind].
  rewrite <- (N.div_mod (Byte.to_N x) 16) by discriminate.
  now rewrite byte_of_to_N.
Qed.

(** X7: parsing a UUID's own rendering gives back the same bytes, for a
    value of any length: [from_string(u.as_string, name)] is the UUID with
    [u]'s bytes and the given name. *)
Theorem from_string_of_as_string (u : UUID.t) (name : string) :
  UUID.from_string (UUID.as_string u) name = Ok (UUID.Build (UUID.value u) name) /\
  UUID.from_string (UUID.as_string u) (UUID.name u) = Ok u.
Proof.
  unfold UUID.from_string. rewrite normalize_as_string, fromhex_hex. cbn [rbind].
  split; [reflexivity|]. now destruct u.
Qed.

Lemma fromhex_odd (n : nat) (t : string) :
  String.length t = (2 * n + 1)%nat ->
  PyStr.forallb PyBytes.is_hexdigit t = true ->
  PyBytes.fromhex t = Raise ValueError.
Proof.
  revert t; induction n as [|n IH]; intros t Hlen Hhex.
  - destruct t as [|c [|d t]]; try discriminate.
    simpl in Hhex. apply andb_prop in Hhex as [Hc _].
    destruct (hexdigit_facts c Hc) as (Hs & v & Hv & _).
    now rewrite fromhex_cons, Hs, Hv.
  - destruct t as [|c [|d t]]; cbn [String.length] in Hlen; try lia.
    simpl in Hhex. apply andb_prop in Hhex as [Hc [Hd Ht]%andb_prop].
    destruct (hexdigit_facts c Hc) as (Hs & hi & Hhi & _).
    destruct (hexdigit_facts d Hd) as (_ & lo & Hlo & _).
    rewrite fromhex_cons, Hs, Hhi, Hlo. rewrite (IH t) by (lia || assumption).
    reflexivity.
Qed.

Lemma normalize_hexdigits (s : string) :
  hex_with_separators s = true ->
  PyStr.forallb PyBytes.is_hexdigit (UUID.normalize s) = true.
Proof.
  intros Hs. unfold UUID.normalize. apply forallb_remove_sep, forallb_remove_sep.
  revert Hs. unfold hex_with_separators. apply forallb_weaken.
  intros a. unfold is_separator.
  destruct (PyBytes.is_hexdigit a), (Ascii.eqb a ":"), (Ascii.eqb a "-");
    simpl; congruence.
Qed.

(** X8: text made of hexadecimal digits and separators that holds an odd
    number of digits is refused by [from_string] with [ValueError]. *)
Theorem from_string_odd_digits (s name : string) (n : nat) :
  hex_with_separators s = true ->
  String.length (UUID.normalize s) = (2 * n + 1)%nat ->
  UUID.from_string s name = Raise ValueError.
Proof.
  intros Hs Hlen. unfold UUID.from_string.
  now rewrite (fromhex_odd n _ Hlen (normalize_hexdigits s Hs)).
Qed.

Lemma from_string_odd_digits_witness :
  hex_with_separators "29:0" = true /\
  String.length (UUID.normalize "29:0") = (2 * 1 + 1)%nat /\
  UUID.from_string "29:0" "" = Raise ValueError.
Proof.
  split; [reflexivity|]. split; [reflexivity|].
  apply (from_string_odd_digits "29:0" "" 1); reflexivity.
Defined.

Lemma fromhex_invalid (n : nat) (t : string) :
  (String.length t <= n)%nat ->
  PyStr.forallb (fun a => PyBytes.is_hexdigit a || PyBytes.is_space a) t = false ->
  PyBytes.fromhex t = Raise ValueError.
Proof.
  revert t; induction n as [|n IH]; intros t Hlen Hbad.
  - destruct t; [discriminate|simpl in Hlen; lia].
  - destruct t as [|c t]; [discriminate|].
    cbn [String.length] in Hlen. cbn [PyStr.forallb] in Hbad. rewrite fromhex_cons.
    destruct (PyBytes.is_space c) eqn:Hs.
    + rewrite orb_true_r in Hbad. apply IH; [lia|exact Hbad].
    + rewrite orb_false_r in Hbad.
      destruct (PyBytes.digit_value c) as [hi|] eqn:Hc; [|reflexivity].
      assert (PyBytes.is_hexdigit c = true) as Hhc
        by (unfold PyBytes.is_hexdigit; now rewrite Hc).
      rewrite Hhc in Hbad. cbn [andb] in Hbad.
      destruct t as [|d t]; [reflexivity|].
      cbn [String.length] in Hlen. cbn [PyStr.forallb] in Hbad.
      destruct (PyBytes.digit_value d) as [lo|] eqn:Hd; [|reflexivity].
      assert (PyBytes.is_hexdigit d = true) as Hhd
        by (unfold PyBytes.is_hexdigit; now rewrite Hd).
      rewrite Hhd in Hbad. cbn [orb andb] in Hbad.
      rewrite (IH t) by (lia || assumption). reflexivity.
Qed.

(** X9: when, once the separators are stripped, the text still holds a
    character that is neither a hexadecimal digit nor ASCII whitespace,
    [from_string] raises [ValueError]. *)
Theorem from_string_invalid_character (s name : string) :
  PyStr.forallb (fun a => PyBytes.is_hexdigit a || PyBytes.is_space a)
    (UUID.normalize s) = false ->
  UUID.from_string s name = Raise ValueError.
Proof.
  intros Hbad. unfold UUID.from_string.
  now rewrite (fromhex_invalid _ _ (Nat.le_refl _) Hbad).
Qed.

Lemma from_string_invalid_character_witness :
  PyStr.forallb (fun a => PyBytes.is_hexdigit a || PyBytes.is_space a)
    (UUID.normalize "0000180g-0000-1000-8000-00805f9b34fb") = false /\
  UUID.from_string "0000180g-0000-1000-8000-00805f9b34fb" "" = Raise ValueError.
Proof.
  split; [reflexivity|].
  apply (from_string_invalid_character "0000180g-0000-1000-8000-00805f9b34fb" "").
  reflexivity.
Defined.

Lemma fromhex_only_value_error (n : nat) (t : string) (e : exn) :
  (String.length t <= n)%nat -> PyBytes.fromhex t = Raise e -> e = ValueError.
Proof.
  revert t; induction n as [|n IH]; intros t Hlen.
  - destruct t; [discriminate|simpl in Hlen; lia].
  - destruct t as [|c t]; [discriminate|].
    cbn [String.length] in Hlen. rewrite fromhex_cons.
    destruct (PyBytes.is_space c); [apply IH; lia|].
    destruct (PyBytes.digit_value c) as [hi|]; [|now intros [= <-]].
    destruct t as [|d t]; [now intros [= <-]|].
    cbn [String.length] in Hlen.
    destruct (PyBytes.digit_value d) as [lo|]; [|now intros [= <-]].
    destruct (PyBytes.fromhex t) as [b|e'] eqn:Et; [discriminate|].
    cbn [rbind]. intros [= <-]. apply (IH t); [lia|exact Et].
Qed.

(** X10: [from_string] never raises anything but [ValueError], and when it
    returns, the UUID carries the given name and the bytes that
    [bytes.fromhex] read from the normalized text. *)
Theorem from_string_outcomes (s name : string) :
  (forall e, UUID.from_string s name = Raise e -> e = ValueError) /\
  (forall u, UUID.from_string s name = Ok u ->
             UUID.name u = name /\
             PyBytes.fromhex (UUID.normalize s) = Ok (UUID.value u)).
Proof.
  unfold UUID.from_string. split.
  - intros e. destruct (PyBytes.fromhex (UUID.normalize s)) as [b|e'] eqn:E;
      [discriminate|]. cbn [rbind]. intros [= <-].
    exact (fromhex_only_value_error _ _ _ (Nat.le_refl _) E).
  - intros u. destruct (PyBytes.fromhex (UUID.normalize s)) as [b|e']; [|discriminate].
    cbn [rbind]. intros [= <-]. split; reflexivity.
Qed.

(** ** Property flags *)

(** X11: each flag predicate reads one bit of the mask (write-with-response
    bit 3, write-without-response bit 2, notify bit 4, indicate bit 5), and
    [is_writeable] holds exactly when one of the two write bits is set; other
    bits of the mask never matter. *)
Theorem flag_predicates_read_bits (c : Characteristic.t) :
  Characteristic.is_writeable_with_response c = Z.testbit (Characteristic.props c) 3 /\
  Characteristic.is_writeable_without_response c = Z.testbit (Characteristic.props c) 2 /\
  Characteristic.is_notifiable c = Z.testbit (Characteristic.props c) 4 /\
  Characteristic.is_indicatable c = Z.testbit (Characteristic.props c) 5 /\
  Characteristic.is_writeable c =
    Z.testbit (Characteristic.props c) 3 || Z.testbit (Characteristic.props c) 2.
Proof.
  unfold Characteristic.is_writeable, Characteristic.is_writeable_with_response,
    Characteristic.is_writeable_without_response, Characteristic.is_notifiable,
    Characteristic.is_indicatable.
  change CharProps.WRITE_YES_RSP with (2 ^ 3).
  change CharProps.WRITE_NO_RSP with (2 ^ 2).
  change CharProps.NOTIFY with (2 ^ 4).
  change CharProps.INDICATE with (2 ^ 5).
  rewrite !contains_single_bit by lia. repeat split.
Qed.

Lemma of_int_congruent (m : Z) :
  exists c, CharProps.of_int m = m + c * 2 ^ 10.
Proof.
  unfold CharProps.of_int, CharProps.all_bits. change (2 ^ 10) with 1024.
  destruct (Z.leb_spec 0 m) as [Hpos|Hneg]; [exists 0; lia|].
  destruct (Z.leb_spec (- (1023 + 1)) m) as [Hin|Hout]; [exists 1; lia|].
  destruct (Z.max_spec (1023 + 1) (2 ^ (Z.log2 (- m) + 1))) as [[_ ->]|[_ ->]];
    [|exists 1; lia].
  assert (10 <= Z.log2 (- m)) as HL
    by (change 10 with (Z.log2 1024); apply Z.log2_le_mono; lia).
  exists (2 ^ (Z.log2 (- m) - 9)).
  replace (Z.log2 (- m) + 1) with ((Z.log2 (- m) - 9) + 10) by lia.
  rewrite Z.pow_add_r by lia. change (2 ^ 10) with 1024. lia.
Qed.

Lemma of_int_low_bits (m k : Z) :
  k < 10 -> Z.testbit (CharProps.of_int m) k = Z.testbit m k.
Proof.
  intros Hk. destruct (of_int_congruent m) as [c ->].
  rewrite <- (Z.mod_pow2_bits_low (m + c * 2 ^ 10) 10 k) by exact Hk.
  rewrite Z_mod_plus_full. now apply Z.mod_pow2_bits_low.
Qed.

Lemma of_int_nonneg (m : Z) : 0 <= CharProps.of_int m.
Proof.
  unfold CharProps.of_int, CharProps.all_bits.
  destruct (Z.leb_spec 0 m) as [Hpos|Hneg]; [exact Hpos|].
  destruct (Z.leb_spec (- (1023 + 1)) m) as [Hin|Hout]; [lia|].
  pose proof (Z.log2_spec (- m) ltac:(lia)) as [_ Hup].
  pose proof (Z.le_max_r (1023 + 1) (2 ^ (Z.log2 (- m) + 1))).
  unfold Z.succ in Hup. lia.
Qed.

Lemma of_int_keeps_nonneg (m : Z) : 0 <= m -> CharProps.of_int m = m.
Proof.
  intros Hm. unfold CharProps.of_int. now destruct (Z.leb_spec 0 m); [|lia].
Qed.

Lemma contains_of_int (m k : Z) :
  0 <= k < 10 ->
  CharProps.contains (CharProps.of_int m) (2 ^ k) = CharProps.contains m (2 ^ k).
Proof.
  intros [Hk0 Hk]. rewrite !contains_single_bit by exact Hk0.
  now apply of_int_low_bits.
Qed.

Lemma contains_lor (p q : Z) (k : Z) :
  0 <= k ->
  CharProps.contains (Z.lor p q) (2 ^ k) =
  CharProps.contains p (2 ^ k) || CharProps.contains q (2 ^ k).
Proof. intros Hk. rewrite !contains_single_bit by exact Hk. apply Z.lor_spec. Qed.

(** X12: a characteristic built with a mask that is the bitwise or of two
    masks has a single-bit flag exactly when one of the two has it, so
    or-ing in NOTIFY, INDICATE or a write flag switches the matching
    predicate on and leaves the others as they were. *)
Theorem flags_of_combined_mask (h dh : Z) (u : UUID.t) (p q : Z) (name : string)
    (v : option bytes) (ds : Dict.t UUID.t Descriptor.t) :
  let c := Characteristic.make h dh u (Z.lor p q) name v ds in
  let cp := Characteristic.make h dh u p name v ds in
  let cq := Characteristic.make h dh u q name v ds in
  Characteristic.is_notifiable c =
    Characteristic.is_notifiable cp || Characteristic.is_notifiable cq /\
  Characteristic.is_indicatable c =
    Characteristic.is_indicatable cp || Characteristic.is_indicatable cq /\
  Characteristic.is_writeable c =
    Characteristic.is_writeable cp || Characteristic.is_writeable cq.
Proof.
  cbv zeta.
  unfold Characteristic.is_writeable, Characteristic.is_writeable_with_response,
    Characteristic.is_writeable_without_response, Characteristic.is_notifiable,
    Characteristic.is_indicatable, Characteristic.make, Characteristic.construct.
  cbn [fst Characteristic.props].
  change CharProps.WRITE_YES_RSP with (2 ^ 3).
  change CharProps.WRITE_NO_RSP with (2 ^ 2).
  change CharProps.NOTIFY with (2 ^ 4).
  change CharProps.INDICATE with (2 ^ 5).
  rewrite !contains_of_int by lia.
  rewrite !contains_lor by lia. repeat split.
  destruct (CharProps.contains p (2 ^ 3)), (CharProps.contains q (2 ^ 3)),
    (CharProps.contains p (2 ^ 2)), (CharProps.contains q (2 ^ 2)); reflexivity.
Qed.

(** ** Spec UUID numbers *)

(** X13: [SpecUuidNumber(n)] returns the member whose value is [n] and
    raises [ValueError] exactly for the integers that are no member's value;
    converting a member to its integer and back gives the member. *)
Theorem spec_uuid_number_lookup :
  (forall m, SpecUuidNumber.of_int (SpecUuidNumber.to_int m) = Ok m) /\
  (forall n m, SpecUuidNumber.of_int n = Ok m <-> SpecUuidNumber.to_int m = n) /\
  (forall n, SpecUuidNumber.of_int n = Raise ValueError <->
             forall m, SpecUuidNumber.to_int m <> n) /\
  (forall n e, SpecUuidNumber.of_int n = Raise e -> e = ValueError).
Proof.
  assert (forall m, SpecUuidNumber.of_int (SpecUuidNumber.to_int m) = Ok m) as Hrt
    by (intros []; reflexivity).
  assert (forall n m, SpecUuidNumber.of_int n = Ok m -> SpecUuidNumber.to_int m = n) as Hok.
  { intros n m. unfold SpecUuidNumber.of_int.
    destruct (find _ _) as [m'|] eqn:E; [|discriminate].
    intros [= <-]. apply find_some in E as [_ E]. now apply Z.eqb_eq. }
  split; [exact Hrt|]. split; [|split].
  - intros n m. split; [apply Hok|]. intros <-. apply Hrt.
  - intros n. split.
    + intros Hr m Hm. rewrite <- Hm, Hrt in Hr. discriminate.
    + intros Hno. unfold SpecUuidNumber.of_int.
      destruct (find _ _) as [m|] eqn:E; [|reflexivity].
      apply find_some in E as [_ E]. apply Z.eqb_eq in E. now elim (Hno m).
  - intros n e. unfold SpecUuidNumber.of_int. destruct (find _ _); [discriminate|].
    now intros [= <-].
Qed.

(** ** Lookups in the table *)

Lemma getitem_scan (ss : GattDB.services_t) (key : UUID.operand) :
  GattDB.CharacteristicView.getitem ss key =
  match find (fun c => UUID.eq (Characteristic.uuid c) key)
          (GattDB.CharacteristicView.values ss) with
  | Some c => Ok c
  | None => Raise KeyError
  end.
Proof. unfold GattDB.CharacteristicView.getitem. now rewrite scan_find. Qed.

(** X14: a view lookup that returns gives a characteristic of the table
    whose UUID equals the key, and no characteristic before it in table
    order does (first match wins); it raises [KeyError] exactly when no
    characteristic's UUID equals the key; [in] agrees with it. *)
Theorem view_lookup_first_match (ss : GattDB.services_t) (key : UUID.operand) :
  (forall c, GattDB.CharacteristicView.getitem ss key = Ok c ->
     exists before after,
       GattDB.CharacteristicView.values ss = before ++ c :: after /\
       UUID.eq (Characteristic.uuid c) key = true /\
       forall x, In x before -> UUID.eq (Characteristic.uuid x) key = false) /\
  (GattDB.CharacteristicView.getitem ss key = Raise KeyError <->
     forall c, In c (GattDB.CharacteristicView.values ss) ->
               UUID.eq (Characteristic.uuid c) key = false) /\
  (GattDB.CharacteristicView.contains ss key = true <->
     exists c, GattDB.CharacteristicView.getitem ss key = Ok c).
Proof.
  rewrite getitem_scan. unfold GattDB.CharacteristicView.contains. rewrite scan_find.
  set (p := fun c => UUID.eq (Characteristic.uuid c) key).
  generalize (GattDB.CharacteristicView.values ss). intros l. split; [|split].
  - induction l as [|y l IH]; simpl; [discriminate|].
    intros c. destruct (p y) eqn:Ey.
    + intros [= <-]. exists [], l. repeat split; [exact Ey|intros x []].
    + intros Hc. destruct (IH c Hc) as (before & after & -> & Hk & Hb).
      exists (y :: before), after. repeat split; [exact Hk|].
      intros x [<-|Hx]; [exact Ey|now apply Hb].
  - destruct (find p l) as [c|] eqn:E.
    + split; [discriminate|]. intros Hno. apply find_some in E as [Hin Hp].
      unfold p in Hp. rewrite (Hno c Hin) in Hp. discriminate.
    + split; [|reflexivity]. intros _ c Hin. exact (find_none _ _ E c Hin).
  - destruct (find p l) as [c|]; split; eauto; try discriminate.
    intros [c [=]].
Qed.

Lemma flat_map_length_sum {A B} (f : A -> list B) (l : list A) :
  List.length (flat_map f l) = list_sum (map (fun x => List.length (f x)) l).
Proof.
  induction l as [|x l IH]; simpl; [reflexivity|]. now rewrite length_app, IH.
Qed.

(** X15: the view's [keys()], [values()] and [items()] run over the same
    entries in the same order, and [len] counts them: the items are the
    keys paired with the values, and there are [len(view)] of each. *)
Theorem view_iteration_coherent (ss : GattDB.services_t) :
  map fst (GattDB.CharacteristicView.items ss) = GattDB.CharacteristicView.keys ss /\
  map snd (GattDB.CharacteristicView.items ss) = GattDB.CharacteristicView.values ss /\
  GattDB.CharacteristicView.len ss =
    Z.of_nat (List.length (GattDB.CharacteristicView.keys ss)) /\
  GattDB.CharacteristicView.len ss =
    Z.of_nat (List.length (GattDB.CharacteristicView.values ss)) /\
  0 <= GattDB.CharacteristicView.len ss.
Proof.
  assert (map fst (GattDB.CharacteristicView.items ss) = GattDB.CharacteristicView.keys ss)
    as Hk.
  { unfold GattDB.CharacteristicView.items, GattDB.CharacteristicView.keys.
    induction (Dict.values ss) as [|s l IH]; simpl; [reflexivity|].
    now rewrite map_app, IH. }
  assert (map snd (GattDB.CharacteristicView.items ss) = GattDB.CharacteristicView.values ss)
    as Hv.
  { unfold GattDB.CharacteristicView.items, GattDB.CharacteristicView.values.
    induction (Dict.values ss) as [|s l IH]; simpl; [reflexivity|].
    now rewrite map_app, IH. }
  split; [exact Hk|]. split; [exact Hv|].
  rewrite <- Hk, <- Hv, !length_map, len_values, <- Hv, length_map.
  repeat split. lia.
Qed.

Lemma in_view_items (ss : GattDB.services_t) (k : UUID.t) :
  In k (GattDB.CharacteristicView.keys ss) ->
  exists svc c, In svc (Dict.values ss) /\ In (k, c) (Service.chars svc).
Proof.
  unfold GattDB.CharacteristicView.keys. intros (svc & Hs & Hk)%in_flat_map.
  unfold Dict.keys in Hk. apply in_map_iff in Hk as ([k' c] & <- & Hin).
  now exists svc, c.
Qed.

(** X16: when every service's characteristic mapping is keyed by the
    characteristics' own UUIDs, every key that the view yields can be looked
    up: [k in view] holds and [view[k]] returns a characteristic whose UUID
    has the bytes of [k]. *)
Theorem view_keys_can_be_looked_up (ss : GattDB.services_t) (k : UUID.t) :
  (forall svc, In svc (Dict.values ss) -> chars_keyed_by_uuid (Service.chars svc)) ->
  In k (GattDB.CharacteristicView.keys ss) ->
  GattDB.CharacteristicView.contains ss (UUID.VUUID k) = true /\
  exists c, GattDB.CharacteristicView.getitem ss (UUID.VUUID k) = Ok c /\
            UUID.value (Characteristic.uuid c) = UUID.value k.
Proof.
  intros Hkeyed Hk. destruct (in_view_items ss k Hk) as (svc & c & Hs & Hin).
  pose proof (Hkeyed svc Hs) as Hf. unfold chars_keyed_by_uuid in Hf.
  rewrite List.Forall_forall in Hf. specialize (Hf _ Hin). cbn [fst snd] in Hf.
  assert (In c (GattDB.CharacteristicView.values ss)) as Hcin.
  { apply (in_view_values ss svc c Hs). unfold Dict.values.
    apply in_map_iff. now exists (k, c). }
  set (p := fun x => UUID.eq (Characteristic.uuid x) (UUID.VUUID k)).
  assert (p c = true) as Hp.
  { unfold p. cbn [UUID.eq]. apply bytes_eqb_eq. unfold UUID.eqb in Hf.
    cbn [UUID.eq] in Hf. apply bytes_eqb_eq in Hf. congruence. }
  rewrite getitem_scan. unfold GattDB.CharacteristicView.contains. rewrite scan_find.
  fold p. destruct (find p (GattDB.CharacteristicView.values ss)) as [c'|] eqn:E.
  - split; [reflexivity|]. exists c'. split; [reflexivity|].
    apply find_some in E as [_ E]. unfold p in E. cbn [UUID.eq] in E.
    now apply bytes_eqb_eq.
  - rewrite (find_none _ _ E c Hcin) in Hp. discriminate.
Qed.

Lemma view_keys_can_be_looked_up_witness :
  (forall svc, In svc (Dict.values Battery.db) -> chars_keyed_by_uuid (Service.chars svc)) /\
  In Battery.BATT_LEVEL (GattDB.CharacteristicView.keys Battery.db) /\
  GattDB.CharacteristicView.contains Battery.db (UUID.VUUID Battery.BATT_LEVEL) = true /\
  exists c, GattDB.CharacteristicView.getitem Battery.db (UUID.VUUID Battery.BATT_LEVEL) = Ok c /\
            UUID.value (Characteristic.uuid c) = UUID.value Battery.BATT_LEVEL.
Proof.
  assert (forall svc, In svc (Dict.values Battery.db) ->
                      chars_keyed_by_uuid (Service.chars svc)) as H1.
  { intros svc [<-|[]]. repeat constructor. }
  assert (In Battery.BATT_LEVEL (GattDB.CharacteristicView.keys Battery.db)) as H2
    by (left; reflexivity).
  split; [exact H1|]. split; [exact H2|].
  exact (view_keys_can_be_looked_up Battery.db Battery.BATT_LEVEL H1 H2).
Defined.

(** X17: [handle2uuid] returns the UUID of the first characteristic, in
    table order, whose value handle is the one asked for, and raises
    [KeyError] exactly when no characteristic has that value handle;
    declaration handles and descriptor handles are not consulted. *)
Theorem handle2uuid_outcomes (ss : GattDB.services_t) (handle : Z) :
  (forall u, GattDB.handle2uuid ss handle = Ok u ->
     exists before c after,
       GattDB.CharacteristicView.values ss = before ++ c :: after /\
       Characteristic.handle c = handle /\ u = Characteristic.uuid c /\
       forall x, In x before -> Characteristic.handle x <> handle) /\
  (GattDB.handle2uuid ss handle = Raise KeyError <->
     forall c, In c (GattDB.CharacteristicView.values ss) ->
               Characteristic.handle c <> handle) /\
  (forall e, GattDB.handle2uuid ss handle = Raise e -> e = KeyError).
Proof.
  unfold GattDB.handle2uuid. rewrite scan_find.
  set (p := fun c => Characteristic.handle c =? handle).
  generalize (GattDB.CharacteristicView.values ss). intros l. split; [|split].
  - induction l as [|y l IH]; simpl; [discriminate|].
    intros u. destruct (p y) eqn:Ey.
    + intros [= <-]. exists [], y, l. repeat split; [now apply Z.eqb_eq|intros x []].
    + intros Hu. destruct (IH u Hu) as (before & c & after & -> & Hh & -> & Hb).
      exists (y :: before), c, after. repeat split; [exact Hh|].
      intros x [<-|Hx]; [now apply Z.eqb_neq|now apply Hb].
  - destruct (find p l) as [c|] eqn:E.
    + split; [discriminate|]. intros Hno. apply find_some in E as [Hin Hp].
      apply Z.eqb_eq in Hp. now elim (Hno c Hin).
    + split; [|reflexivity]. intros _ c Hin. apply Z.eqb_neq.
      exact (find_none _ _ E c Hin).
  - intros e. destruct (find p l); [discriminate|]. now intros [= <-].
Qed.

(** X18: whatever [uuid2handle] returns is a handle that [handle2uuid]
    resolves, even in a table with repeated UUIDs or handles: the two
    lookups never disagree about which handles exist.  [uuid2handle] raises
    only [KeyError], and exactly when no characteristic has the UUID's bytes. *)
Theorem uuid2handle_then_handle2uuid (ss : GattDB.services_t) (uuid : UUID.t) :
  (forall h, GattDB.uuid2handle ss uuid = Ok h ->
     exists u, GattDB.handle2uuid ss h = Ok u) /\
  (GattDB.uuid2handle ss uuid = Raise KeyError <->
     forall c, In c (GattDB.CharacteristicView.values ss) ->
               UUID.value (Characteristic.uuid c) <> UUID.value uuid) /\
  (forall e, GattDB.uuid2handle ss uuid = Raise e -> e = KeyError).
Proof.
  unfold GattDB.uuid2handle. rewrite getitem_scan.
  set (p := fun c => UUID.eq (Characteristic.uuid c) (UUID.VUUID uuid)).
  destruct (find p (GattDB.CharacteristicView.values ss)) as [c|] eqn:E; cbn [rbind].
  - apply find_some in E as [Hin Hp]. split; [|split; [|discriminate]].
    + intros h [= <-]. unfold GattDB.handle2uuid. rewrite scan_find.
      destruct (find (fun x => Characteristic.handle x =? Characteristic.handle c)
                  (GattDB.CharacteristicView.values ss)) as [c'|] eqn:E'; [eauto|].
      pose proof (find_none _ _ E' c Hin) as Hf. cbv beta in Hf.
      rewrite Z.eqb_refl in Hf. discriminate.
    + split; [discriminate|]. intros Hno. elim (Hno c Hin).
      unfold p in Hp. cbn [UUID.eq] in Hp. now apply bytes_eqb_eq.
  - split; [discriminate|]. split; [|now intros e [= <-]].
    split; [|reflexivity]. intros _ c Hin Heq.
    pose proof (find_none _ _ E c Hin) as Hf. unfold p in Hf. cbn [UUID.eq] in Hf.
    apply bytes_eqb_eq in Heq. congruence.
Qed.

(** ** Outcome and size of the CSV dump *)

Lemma descriptor_row_recognised (d : Descriptor.t) :
  (is_recognised d = true -> exists r, GattDB.descriptor_row d = Ok r) /\
  (is_recognised d = false -> GattDB.descriptor_row d = Raise ValueError).
Proof.
  unfold is_recognised, GattDB.descriptor_row, SpecUuidNumber.of_int.
  destruct (find _ _); cbn [rbind]; split; eauto; discriminate.
Qed.

Lemma dump_descriptors_outcome (w : GattDB.writer) (ds : list Descriptor.t) :
  exists rows,
    GattDB.dump_descriptors w ds =
      (w ++ rows, if forallb is_recognised ds then Ok tt else Raise ValueError) /\
    (forallb is_recognised ds = true -> List.length rows = List.length ds).
Proof.
  revert w; induction ds as [|d ds IH]; intros w; cbn [GattDB.dump_descriptors forallb].
  - exists []. now rewrite app_nil_r.
  - destruct (descriptor_row_recognised d) as [Hok Hbad].
    destruct (is_recognised d).
    + destruct (Hok eq_refl) as [r ->]. destruct (IH (GattDB.writerow w r)) as (rows & -> & Hl).
      exists (r :: rows). unfold GattDB.writerow. rewrite <- app_assoc. cbn [andb].
      split; [reflexivity|]. intros H. simpl. now rewrite Hl.
    + rewrite (Hbad eq_refl). exists []. rewrite app_nil_r. cbn [andb].
      split; [reflexivity|discriminate].
Qed.

Lemma dump_chars_outcome (w : GattDB.writer) (cs : list Characteristic.t) :
  exists rows,
    GattDB.dump_chars w cs =
      (w ++ rows,
       if forallb is_recognised
            (flat_map (fun c => Dict.values (Characteristic.descriptors c)) cs)
       then Ok tt else Raise ValueError) /\
    (forallb is_recognised
       (flat_map (fun c => Dict.values (Characteristic.descriptors c)) cs) = true ->
     List.length rows =
       (2 * List.length cs +
        List.length (flat_map (fun c => Dict.values (Characteristic.descriptors c)) cs))%nat).
Proof.
  revert w; induction cs as [|c cs IH]; intros w;
    cbn [GattDB.dump_chars flat_map].
  - exists []. now rewrite app_nil_r.
  - cbv zeta. rewrite forallb_app.
    destruct (dump_descriptors_outcome
                (GattDB.writerow (GattDB.writerow w (GattDB.declaration_row c))
                   (GattDB.value_row c))
                (Dict.values (Characteristic.descriptors c))) as (rows & -> & Hl).
    destruct (forallb is_recognised (Dict.values (Characteristic.descriptors c))).
    + destruct (IH ((GattDB.writerow (GattDB.writerow w (GattDB.declaration_row c))
                       (GattDB.value_row c)) ++ rows)) as (rows' & -> & Hl').
      exists (GattDB.declaration_row c :: GattDB.value_row c :: rows ++ rows').
      unfold GattDB.writerow. rewrite <- !app_assoc. cbn [andb app].
      split; [reflexivity|]. intros H. cbn [List.length].
      rewrite !length_app, (Hl eq_refl), (Hl' H). lia.
    + exists (GattDB.declaration_row c :: GattDB.value_row c :: rows).
      unfold GattDB.writerow. rewrite <- !app_assoc. cbn [andb app].
      split; [reflexivity|discriminate].
Qed.

Lemma dump_services_outcome (w : GattDB.writer) (l : list Service.t) :
  exists rows,
    GattDB.dump_services w l =
      (w ++ rows,
       if forallb is_recognised
            (flat_map (fun c => Dict.values (Characteristic.descriptors c))
               (flat_map (fun s => Dict.values (Service.chars s)) l))
       then Ok tt else Raise ValueError) /\
    (forallb is_recognised
       (flat_map (fun c => Dict.values (Characteristic.descriptors c))
          (flat_map (fun s => Dict.values (Service.chars s)) l)) = true ->
     List.length rows =
       (List.length l +
        2 * List.length (flat_map (fun s => Dict.values (Service.chars s)) l) +
        List.length
          (flat_map (fun c => Dict.values (Characteristic.descriptors c))
             (flat_map (fun s => Dict.values (Service.chars s)) l)))%nat).
Proof.
  revert w; induction l as [|s l IH]; intros w;
    cbn [GattDB.dump_services flat_map].
  - exists []. now rewrite app_nil_r.
  - cbv zeta. rewrite flat_map_app, forallb_app.
    destruct (dump_chars_outcome (GattDB.writerow w (GattDB.service_row s))
                (Dict.values (Service.chars s))) as (rows & -> & Hl).
    destruct (forallb is_recognised
                (flat_map (fun c => Dict.values (Characteristic.descriptors c))
                   (Dict.values (Service.chars s)))).
    + destruct (IH (GattDB.writerow w (GattDB.service_row s) ++ rows))
        as (rows' & -> & Hl').
      exists (GattDB.service_row s :: rows ++ rows').
      unfold GattDB.writerow. rewrite <- !app_assoc. cbn [andb app].
      split; [reflexivity|]. intros H. cbn [List.length].
      rewrite !length_app, (Hl eq_refl), (Hl' H). lia.
    + exists (GattDB.service_row s :: rows).
      unfold GattDB.writerow. rewrite <- !app_assoc. cbn [andb app].
      split; [reflexivity|discriminate].
Qed.

(** X19: when every descriptor's UUID is a spec UUID number, the dump runs
    to the end and writes, after the header, one row per service, two rows
    per characteristic and one row per descriptor. *)
Theorem dump_row_count (ss : GattDB.services_t) :
  forallb is_recognised (all_descriptors ss) = true ->
  snd (GattDB.dump_to_csv ss) = Ok tt /\
  List.length (GattDB.body (fst (GattDB.dump_to_csv ss))) =
    (List.length ss + 2 * List.length (GattDB.CharacteristicView.values ss) +
     List.length (all_descriptors ss))%nat.
Proof.
  unfold all_descriptors, GattDB.CharacteristicView.values, GattDB.dump_to_csv.
  intros Hrec.
  destruct (dump_services_outcome (GattDB.writerow [] GattDB.header) (Dict.values ss))
    as (rows & -> & Hl).
  rewrite Hrec. split; [reflexivity|]. cbn [fst GattDB.writerow app GattDB.body tl].
  rewrite (Hl Hrec). unfold Dict.values at 1. now rewrite length_map.
Qed.

Lemma dump_row_count_witness :
  forallb is_recognised (all_descriptors Battery.db) = true /\
  snd (GattDB.dump_to_csv Battery.db) = Ok tt /\
  List.length (GattDB.body (fst (GattDB.dump_to_csv Battery.db))) =
    (List.length Battery.db + 2 * List.length (GattDB.CharacteristicView.values Battery.db) +
     List.length (all_descriptors Battery.db))%nat.
Proof.
  split; [reflexivity|]. apply (dump_row_count Battery.db). reflexivity.
Defined.

(** X20: the dump ends in one of two ways: it completes when every
    descriptor's UUID is a spec UUID number, and raises [ValueError]
    otherwise; in both cases the header is the first row of what was
    written. *)
Theorem dump_outcome (ss : GattDB.services_t) :
  snd (GattDB.dump_to_csv ss) =
    (if forallb is_recognised (all_descriptors ss) then Ok tt else Raise ValueError) /\
  hd_error (fst (GattDB.dump_to_csv ss)) = Some GattDB.header.
Proof.
  unfold all_descriptors, GattDB.CharacteristicView.values, GattDB.dump_to_csv.
  destruct (dump_services_outcome (GattDB.writerow [] GattDB.header) (Dict.values ss))
    as (rows & -> & _).
  split; reflexivity.
Qed.

(** ** Services added after construction *)

Lemma setitem_absent {V} (d : Dict.t UUID.t V) (k : UUID.t) (v : V) :
  Dict.contains UUID.eqb d k = false ->
  Dict.setitem UUID.eqb d k v = d ++ [(k, v)].
Proof.
  induction d as [|[k0 v0] d IH]; simpl; [reflexivity|].
  intros [Hk Hd]%orb_false_elim. rewrite Hk. now rewrite IH.
Qed.

Lemma contains_keys {V W} (d : Dict.t UUID.t V) (d' : Dict.t UUID.t W) (k : UUID.t) :
  map fst d = map fst d' ->
  Dict.contains UUID.eqb d k = Dict.contains UUID.eqb d' k.
Proof.
  revert d'; induction d as [|[k0 v0] d IH]; intros [|[k1 v1] d']; simpl;
    try discriminate; [reflexivity|].
  intros [= -> Hd]. now rewrite (IH d' Hd).
Qed.

Section AddService.
Import Store.

Lemma read_entries_keys (h : gmap ref obj) (d : Dict.t UUID.t ref)
    (ss : GattDB.services_t) :
  read_entries h d = Some ss -> map fst ss = map fst d.
Proof.
  revert ss; induction d as [|[k r] d IH]; intros ss; simpl.
  - now intros [= <-].
  - destruct (read_service h r); [|discriminate].
    destruct (read_entries h d) as [rest|]; [|discriminate].
    intros [= <-]. simpl. now rewrite (IH rest eq_refl).
Qed.

Lemma read_entries_app (h : gmap ref obj) (d1 d2 : Dict.t UUID.t ref)
    (s1 s2 : GattDB.services_t) :
  read_entries h d1 = Some s1 -> read_entries h d2 = Some s2 ->
  read_entries h (d1 ++ d2) = Some (s1 ++ s2).
Proof.
  revert s1; induction d1 as [|[k r] d1 IH]; intros s1; simpl.
  - now intros [= <-].
  - destruct (read_service h r); [|discriminate].
    destruct (read_entries h d1) as [rest|]; [|discriminate].
    intros [= <-] H2. now rewrite (IH rest eq_refl H2).
Qed.

Lemma add_service_snapshot (h h' : gmap ref obj) (sm : ref) (key : UUID.t)
    (s : Service.t) (ss : GattDB.services_t) :
  read_services h sm = Some ss ->
  Dict.contains UUID.eqb ss key = false ->
  add_service h sm key s = Some h' ->
  read_services h' sm = Some (ss ++ [(key, s)]).
Proof.
  unfold read_services, add_service, alloc.
  destruct (h !! sm) as [[d| | | |]|] eqn:Esm; try discriminate.
  intros Hss Hkey [= <-].
  set (cm := fresh (dom h)) in *.
  set (h1 := <[cm := CharMap (Service.chars s)]> h) in *.
  set (r := fresh (dom h1)) in *.
  set (o := ServiceObj (Service.uuid s) (Service.start_handle s) (Service.name s)
              (Service.end_handle s) cm) in *.
  set (h2 := <[r := o]> h1) in *.
  assert (h !! cm = None) as Hcm by apply fresh_unused.
  assert (h1 !! r = None) as Hr by apply fresh_unused.
  assert (h ⊆ h2) as Hsub
    by (etrans; [apply insert_subseteq, Hcm|now apply insert_subseteq]).
  pose proof (lookup_weaken _ _ _ _ Esm Hsub) as Esm2.
  rewrite lookup_insert_eq.
  rewrite (read_entries_set_map h2 sm d _ _ Esm2).
  rewrite setitem_absent
    by (rewrite <- Hkey; apply contains_keys; symmetry; now apply (read_entries_keys h)).
  apply read_entries_app; [now apply (read_entries_weaken h)|].
  simpl. unfold read_service, h2. rewrite lookup_insert_eq. unfold o.
  assert (r <> cm) as Hrc.
  { intros Heq. unfold h1 in Hr. rewrite Heq, lookup_insert_eq in Hr. discriminate. }
  rewrite lookup_insert_ne by congruence. unfold h1. rewrite lookup_insert_eq.
  now destruct s.
Qed.

End AddService.

Lemma len_app (s1 s2 : GattDB.services_t) :
  GattDB.CharacteristicView.len (s1 ++ s2) =
  GattDB.CharacteristicView.len s1 + GattDB.CharacteristicView.len s2.
Proof.
  unfold GattDB.CharacteristicView.len, Dict.values. rewrite !map_app.
  induction (map (fun s => Dict.len (Service.chars s)) (map snd s1)) as [|x l IH];
    simpl; [reflexivity|]. rewrite IH. lia.
Qed.

(** X21: a service put into the mapping under a new key after the [GattDB]
    was built shows through the existing view at once: the view now reads
    the old services followed by the new one, its length grows by the new
    service's characteristic count, and each of the new characteristics is
    found by [in]. *)
Theorem added_service_is_visible (h h' : Store.t) (sm db view : Store.ref)
    (key : UUID.t) (s : Service.t) (ss : GattDB.services_t) :
  Store.linked h sm db view ->
  Store.view_services h view = Some ss ->
  Dict.contains UUID.eqb ss key = false ->
  Store.add_service h sm key s = Some h' ->
  Store.view_services h' view = Some (ss ++ [(key, s)]) /\
  Store.view_len h' view =
    Some (GattDB.CharacteristicView.len ss + Dict.len (Service.chars s)) /\
  (forall c, In c (Dict.values (Service.chars s)) ->
     Store.view_contains h' view (UUID.VUUID (Characteristic.uuid c)) = Some true).
Proof.
  intros Hl Hss Hkey Hadd.
  assert (Store.linked h' sm db view) as Hl'
    by (eapply mutation_linked; [exact Hl|eapply Store.mut_add_service; exact Hadd]).
  rewrite (view_services_linked _ _ _ _ Hl) in Hss.
  pose proof (add_service_snapshot h h' sm key s ss Hss Hkey Hadd) as Hss'.
  unfold Store.view_len, Store.view_contains.
  rewrite (view_services_linked _ _ _ _ Hl'), Hss'. cbn [option_map].
  split; [reflexivity|]. split.
  - rewrite len_app. unfold GattDB.CharacteristicView.len at 2. simpl.
    now rewrite Z.add_0_r.
  - intros c Hc. f_equal. unfold GattDB.CharacteristicView.contains.
    rewrite scan_find.
    destruct (find _ _) as [c'|] eqn:E; [reflexivity|].
    assert (In c (GattDB.CharacteristicView.values (ss ++ [(key, s)]))) as Hin.
    { apply (in_view_values _ s c); [|exact Hc].
      unfold Dict.values. rewrite map_app. apply in_or_app. right. now left. }
    pose proof (find_none _ _ E c Hin) as Hf. cbv beta in Hf. cbn [UUID.eq] in Hf.
    now rewrite bytes_eqb_refl in Hf.
Qed.

Lemma added_service_is_visible_witness :
  Store.linked Battery.store_with_db Battery.sm Battery.db_ref 5%positive /\
  Store.view_services Battery.store_with_db 5%positive = Some Battery.db /\
  Dict.contains UUID.eqb Battery.db DeviceInfo.S_DEV_INFO = false /\
  exists h',
    Store.add_service Battery.store_with_db Battery.sm DeviceInfo.S_DEV_INFO
      DeviceInfo.service = Some h' /\
    Store.view_services h' 5%positive =
      Some (Battery.db ++ [(DeviceInfo.S_DEV_INFO, DeviceInfo.service)]) /\
    Store.view_len h' 5%positive = Some 2 /\
    Store.view_contains h' 5%positive (UUID.VUUID DeviceInfo.INF_MAN_NAME) = Some true.
Proof.
  assert (Store.linked Battery.store_with_db Battery.sm Battery.db_ref 5%positive) as H1.
  { split; [vm_compute; reflexivity|]. split; [vm_compute; reflexivity|].
    eexists. vm_compute. reflexivity. }
  assert (Store.view_services Battery.store_with_db 5%positive = Some Battery.db) as H2
    by (vm_compute; reflexivity).
  assert (Dict.contains UUID.eqb Battery.db DeviceInfo.S_DEV_INFO = false) as H3
    by reflexivity.
  repeat (split; [assumption|]).
  destruct (Store.add_service Battery.store_with_db Battery.sm DeviceInfo.S_DEV_INFO
              DeviceInfo.service) as [h'|] eqn:Ha;
    [|vm_compute in Ha; discriminate Ha].
  exists h'. split; [reflexivity|].
  destruct (added_service_is_visible Battery.store_with_db h' Battery.sm Battery.db_ref
              5%positive DeviceInfo.S_DEV_INFO DeviceInfo.service Battery.db
              H1 H2 H3 Ha) as (Hv & Hlen & Hc).
  split; [exact Hv|]. split; [exact Hlen|].
  apply (Hc DeviceInfo.man_name). left. reflexivity.
Defined.

(** ** The registry *)

Lemma uuid_eqb_trans_l (a b c : UUID.t) :
  UUID.eqb a b = true -> UUID.eqb a c = UUID.eqb b c.
Proof.
  intros Hab. apply bytes_eqb_eq in Hab. unfold UUID.eqb, UUID.eq. now rewrite Hab.
Qed.

Lemma getitem_setitem {V} (d : Dict.t UUID.t V) (k k' : UUID.t) (v : V) :
  Dict.getitem UUID.eqb (Dict.setitem UUID.eqb d k v) k' =
  if UUID.eqb k k' then Ok v else Dict.getitem UUID.eqb d k'.
Proof.
  induction d as [|[k0 v0] d IH]; simpl; [reflexivity|].
  destruct (UUID.eqb k0 k) eqn:E0; simpl.
  - rewrite (uuid_eqb_trans_l k0 k k' E0). now destruct (UUID.eqb k k').
  - rewrite IH. destruct (UUID.eqb k0 k') eqn:E1; [|reflexivity].
    destruct (UUID.eqb k k') eqn:E2; [|reflexivity].
    apply bytes_eqb_eq in E1, E2.
    assert (UUID.eqb k0 k = true) by (apply bytes_eqb_eq; congruence). congruence.
Qed.

Lemma contains_getitem {V} (d : Dict.t UUID.t V) (k : UUID.t) :
  Dict.contains UUID.eqb d k =
  match Dict.getitem UUID.eqb d k with Ok _ => true | Raise _ => false end.
Proof.
  induction d as [|[k0 v0] d IH]; simpl; [reflexivity|].
  now destruct (UUID.eqb k0 k).
Qed.

Lemma collect_lookup (dct : list (string * UUIDsMeta.attr)) (d0 : UUIDsMeta.table) :
  constants_are_uuids dct = true ->
  exists t, UUIDsMeta.collect d0 dct = Some t /\
    forall key, Dict.getitem UUID.eqb t key =
      match last_declared dct key with
      | Some n => Ok n
      | None => Dict.getitem UUID.eqb d0 key
      end.
Proof.
  revert d0; induction dct as [|[k v] dct IH]; intros d0 Hc.
  - exists d0. split; [reflexivity|]. intros key. reflexivity.
  - cbn [constants_are_uuids forallb fst snd] in Hc.
    apply andb_prop in Hc as [Hkv Hc]. cbn [UUIDsMeta.collect last_declared].
    destruct (UUIDsMeta.is_dunder k) eqn:Ed.
    + destruct (IH d0 Hc) as (t & -> & Ht). exists t. split; [reflexivity|].
      intros key. rewrite Ht. destruct (last_declared dct key); [reflexivity|].
      now destruct v.
    + destruct v as [u|]; [|discriminate].
      destruct (IH (Dict.setitem UUID.eqb d0 u (UUID.name u)) Hc) as (t & -> & Ht).
      exists t. split; [reflexivity|]. intros key. rewrite Ht.
      destruct (last_declared dct key); [reflexivity|].
      rewrite getitem_setitem. cbn [negb andb]. now destruct (UUID.eqb u key).
Qed.

(** X22: for a class body whose attributes outside the double-underscore
    names are all UUIDs, the metaclass builds a table in which looking up a
    UUID gives the name of the last such attribute with the same bytes (a
    later constant with the same UUID replaces the name), raises [KeyError]
    when there is none, and [in] answers accordingly. *)
Theorem registry_lookup_last_declared (dct : list (string * UUIDsMeta.attr)) :
  constants_are_uuids dct = true ->
  exists t, UUIDsMeta.new dct = Some t /\
    forall key,
      UUIDsMeta.getitem t key =
        match last_declared dct key with
        | Some n => Ok n
        | None => Raise KeyError
        end /\
      UUIDsMeta.contains t key =
        match last_declared dct key with
        | Some _ => true
        | None => false
        end.
Proof.
  intros Hc. destruct (collect_lookup dct [] Hc) as (t & Ht & Hl).
  exists t. split; [exact Ht|]. intros key.
  unfold UUIDsMeta.getitem, UUIDsMeta.contains. rewrite contains_getitem, Hl.
  now destruct (last_declared dct key).
Qed.

Lemma registry_lookup_last_declared_witness :
  constants_are_uuids
    [("__doc__"%string, UUIDsMeta.AOther);
     ("FIRST"%string, UUIDsMeta.AUUID (UUID.Build cccd_bytes "first"));
     ("SECOND"%string, UUIDsMeta.AUUID (UUID.Build cccd_bytes "second"))] = true /\
  exists t,
    UUIDsMeta.new
      [("__doc__"%string, UUIDsMeta.AOther);
       ("FIRST"%string, UUIDsMeta.AUUID (UUID.Build cccd_bytes "first"));
       ("SECOND"%string, UUIDsMeta.AUUID (UUID.Build cccd_bytes "second"))] = Some t /\
    UUIDsMeta.getitem t uuid_2902 = Ok "second"%string /\
    UUIDsMeta.contains t uuid_2902 = true /\
    UUIDsMeta.getitem t Battery.BATT_LEVEL = Raise KeyError.
Proof.
  split; [reflexivity|].
  destruct (registry_lookup_last_declared
              [("__doc__"%string, UUIDsMeta.AOther);
               ("FIRST"%string, UUIDsMeta.AUUID (UUID.Build cccd_bytes "first"));
               ("SECOND"%string, UUIDsMeta.AUUID (UUID.Build cccd_bytes "second"))]
              eq_refl) as (t & Ht & Hl).
  exists t. split; [exact Ht|].
  split; [exact (proj1 (Hl uuid_2902))|].
  split; [exact (proj2 (Hl uuid_2902))|exact (proj1 (Hl Battery.BATT_LEVEL))].
Defined.

(** X23: the table built for the [UUIDs] class holds the twenty declared
    constants in declaration order, each a 16-byte UUID that renders as its
    declared text and is entered under its declared name; none replaces
    another, and every declared text, parsed again without a name, is found
    in the table and resolves to its declared name. *)
Theorem UUIDs_registry_contents :
  exists t,
    UUIDs._uuids = Ok (Some t) /\
    List.length (UUIDsMeta.iter t) = 20%nat /\
    map (fun kv => (UUID.as_string (fst kv), snd kv)) (UUIDsMeta.iter t) =
      map snd UUIDs.declarations /\
    Forall (fun kv => List.length (UUID.value (fst kv)) = 16%nat /\
                      UUID.name (fst kv) = snd kv) (UUIDsMeta.iter t) /\
    Forall (fun d =>
              exists u, UUID.from_string (fst (snd d)) "" = Ok u /\
                        UUIDsMeta.contains t u = true /\
                        UUIDsMeta.getitem t u = Ok (snd (snd d)))
      UUIDs.declarations.
Proof.
  destruct UUIDs._uuids as [[t|]|e] eqn:E; try (vm_compute in E; discriminate E).
  exists t. split; [reflexivity|].
  assert (Some t = Some
            (map (fun d => match UUID.from_string (fst (snd d)) (snd (snd d)) with
                           | Ok u => (u, snd (snd d))
                           | Raise _ => (uuid_2902, ""%string)
                           end) UUIDs.declarations)) as Ht
    by (vm_compute in E; injection E as E; rewrite <- E; vm_compute; reflexivity).
  injection Ht as ->.
  split; [reflexivity|]. split; [vm_compute; reflexivity|]. split.
  - repeat constructor.
  - repeat (constructor; [eexists; split; [vm_compute; reflexivity|split; vm_compute; reflexivity]|]).
    constructor.
Qed.

(** ** More on UUID values *)

(** X24: among UUIDs of one width the integer form is faithful: two UUIDs
    with the same number of bytes and the same [as_int] are equal. *)
Theorem as_int_faithful_at_equal_width (a b : UUID.t) :
  List.length (UUID.value a) = List.length (UUID.value b) ->
  UUID.as_int a = UUID.as_int b ->
  UUID.eq a (UUID.VUUID b) = true /\ UUID.value a = UUID.value b.
Proof.
  intros Hlen Hint. unfold UUID.as_int in Hint.
  assert (UUID.value a = UUID.value b) as Hv.
  { rewrite <- (be_digits_to_int (UUID.value a)), <- (be_digits_to_int (UUID.value b)).
    now rewrite Hlen, Hint. }
  split; [|exact Hv]. now apply bytes_eqb_eq.
Qed.

Lemma as_int_faithful_at_equal_width_witness :
  List.length (UUID.value (UUID.Build cccd_bytes "a")) =
    List.length (UUID.value uuid_2902) /\
  UUID.as_int (UUID.Build cccd_bytes "a") = UUID.as_int uuid_2902 /\
  UUID.eq (UUID.Build cccd_bytes "a") (UUID.VUUID uuid_2902) = true /\
  UUID.value (UUID.Build cccd_bytes "a") = UUID.value uuid_2902.
Proof.
  split; [reflexivity|]. split; [reflexivity|].
  apply (as_int_faithful_at_equal_width (UUID.Build cccd_bytes "a") uuid_2902);
    reflexivity.
Defined.

(** X25: for a 16-byte UUID, [as_string] is 36 characters long and groups
    the bytes 4-2-2-2-6: it is the hex text of bytes 0-3, 4-5, 6-7, 8-9 and
    10-15, joined by hyphens. *)
Theorem as_string_sixteen_bytes (u : UUID.t) :
  List.length (UUID.value u) = 16%nat ->
  String.length (UUID.as_string u) = 36%nat /\
  UUID.as_string u =
    (PyBytes.hex (firstn 4 (UUID.value u)) ++ "-" ++
     PyBytes.hex (firstn 2 (skipn 4 (UUID.value u))) ++ "-" ++
     PyBytes.hex (firstn 2 (skipn 6 (UUID.value u))) ++ "-" ++
     PyBytes.hex (firstn 2 (skipn 8 (UUID.value u))) ++ "-" ++
     PyBytes.hex (skipn 10 (UUID.value u)))%string.
Proof.
  intros Hlen. destruct u as [v n]. cbn [UUID.value] in *.
  do 16 (destruct v as [|? v]; [discriminate Hlen|]).
  destruct v; [|discriminate Hlen]. split; reflexivity.
Qed.

Lemma as_string_sixteen_bytes_witness :
  List.length (UUID.value Battery.S_BATTERY) = 16%nat /\
  String.length (UUID.as_string Battery.S_BATTERY) = 36%nat /\
  UUID.as_string Battery.S_BATTERY =
    (PyBytes.hex (firstn 4 (UUID.value Battery.S_BATTERY)) ++ "-" ++
     PyBytes.hex (firstn 2 (skipn 4 (UUID.value Battery.S_BATTERY))) ++ "-" ++
     PyBytes.hex (firstn 2 (skipn 6 (UUID.value Battery.S_BATTERY))) ++ "-" ++
     PyBytes.hex (firstn 2 (skipn 8 (UUID.value Battery.S_BATTERY))) ++ "-" ++
     PyBytes.hex (skipn 10 (UUID.value Battery.S_BATTERY)))%string.
Proof.
  split; [reflexivity|]. apply (as_string_sixteen_bytes Battery.S_BATTERY). reflexivity.
Defined.

(** ** The CCCD lookup without assumptions on the mapping *)

Lemma dict_getitem_outcomes {V} (d : Dict.t UUID.t V) (k : UUID.t) :
  (forall v, Dict.getitem UUID.eqb d k = Ok v ->
     exists before k' after,
       d = before ++ (k', v) :: after /\ UUID.value k' = UUID.value k /\
       forall x, In x before -> UUID.value (fst x) <> UUID.value k) /\
  (Dict.getitem UUID.eqb d k = Raise KeyError <->
     forall x, In x d -> UUID.value (fst x) <> UUID.value k) /\
  (forall e, Dict.getitem UUID.eqb d k = Raise e -> e = KeyError).
Proof.
  induction d as [|[k0 v0] d (IH1 & IH2 & IH3)]; simpl.
  - split; [discriminate|]. split; [tauto|]. now intros e [= <-].
  - destruct (UUID.eqb k0 k) eqn:E.
    + apply bytes_eqb_eq in E. split; [|split; [|discriminate]].
      * intros v [= <-]. exists [], k0, d. repeat split; [exact E|intros x []].
      * split; [discriminate|]. intros H. now elim (H (k0, v0) (or_introl eq_refl)).
    + assert (UUID.value k0 <> UUID.value k) as Hne.
      { intros H. apply bytes_eqb_eq in H. unfold UUID.eqb, UUID.eq in E. congruence. }
      split; [|split; [|exact IH3]].
      * intros v Hv. destruct (IH1 v Hv) as (before & k' & after & -> & Hk & Hb).
        exists ((k0, v0) :: before), k', after. repeat split; [exact Hk|].
        intros x [<-|Hx]; [exact Hne|now apply Hb].
      * rewrite IH2. split.
        -- intros H x [<-|Hx]; [exact Hne|now apply H].
        -- intros H x Hx. apply H. now right.
Qed.

(** X26: [cccd_handle] returns the handle of the first descriptor stored
    under a key whose bytes are 29 02, whatever UUID that descriptor itself
    carries; it raises [KeyError] exactly when no key has those bytes, and
    raises nothing else. *)
Theorem cccd_handle_outcomes (c : Characteristic.t) :
  (forall h, Characteristic.cccd_handle c = Ok h ->
     exists before k d after,
       Characteristic.descriptors c = before ++ (k, d) :: after /\
       UUID.value k = cccd_bytes /\ Descriptor.handle d = h /\
       forall x, In x before -> UUID.value (fst x) <> cccd_bytes) /\
  (Characteristic.cccd_handle c = Raise KeyError <->
     forall x, In x (Characteristic.descriptors c) -> UUID.value (fst x) <> cccd_bytes) /\
  (forall e, Characteristic.cccd_handle c = Raise e -> e = KeyError).
Proof.
  unfold Characteristic.cccd_handle.
  change Characteristic.cccd_key with (Ok uuid_2902). cbn [rbind].
  destruct (dict_getitem_outcomes (Characteristic.descriptors c) uuid_2902)
    as (H1 & H2 & H3).
  change (UUID.value uuid_2902) with cccd_bytes in H1, H2.
  destruct (Dict.getitem UUID.eqb (Characteristic.descriptors c) uuid_2902)
    as [d|e]; cbn [rbind].
  - split; [|split; [|discriminate]].
    + intros h [= <-]. destruct (H1 d eq_refl) as (before & k & after & Hd & Hk & Hb).
      now exists before, k, d, after.
    + split; [discriminate|]. intros H. apply H2 in H. discriminate.
  - split; [discriminate|]. split.
    + rewrite (H3 e eq_refl) in *. split; [intros _; now apply H2|reflexivity].
    + intros e' [= <-]. now apply H3.
Qed.

(** ** Construction and naming *)

(** X27: building a characteristic or a service leaves the UUID's bytes
    as they were (so every lookup by the original UUID still matches) and
    names the UUID object it was given, which is the one the new record
    holds: the UUID keeps its own name when it has one and takes the
    characteristic's or service's name otherwise, so that [str] of it is the
    hex rendering only when both names are empty.  The stored property mask
    is what [CharProps] makes of the given integer: never negative, equal to
    the given mask when that is not negative, and always equal to it on the
    ten flag bits. *)
Theorem construction_names_the_uuid (h dh : Z) (u : UUID.t) (p : Z) (name : string)
    (v : option bytes) (ds : Dict.t UUID.t Descriptor.t)
    (sh eh : Z) (cs : Dict.t UUID.t Characteristic.t) :
  let c := Characteristic.make h dh u p name v ds in
  let s := Service.make u sh name eh cs in
  Characteristic.uuid c = snd (Characteristic.construct h dh u p name v ds) /\
  Service.uuid s = snd (Service.construct u sh name eh cs) /\
  UUID.eqb (Characteristic.uuid c) u = true /\
  UUID.eqb (Service.uuid s) u = true /\
  UUID.str (Characteristic.uuid c) = UUID.str (Service.uuid s) /\
  UUID.str (Characteristic.uuid c) =
    (if String.eqb (UUID.name u) "" then
       if String.eqb name "" then UUID.as_string u else name
     else UUID.name u) /\
  0 <= Characteristic.props c /\
  (0 <= p -> Characteristic.props c = p) /\
  (forall k, k < 10 -> Z.testbit (Characteristic.props c) k = Z.testbit p k).
Proof.
  cbv zeta.
  unfold Characteristic.make, Characteristic.construct, Service.make,
    Service.construct, post_init_uuid, UUID.str.
  cbn [fst snd Characteristic.uuid Service.uuid Characteristic.props].
  split; [reflexivity|]. split; [reflexivity|].
  assert (0 <= CharProps.of_int p /\
          (0 <= p -> CharProps.of_int p = p) /\
          (forall k, k < 10 -> Z.testbit (CharProps.of_int p) k = Z.testbit p k)) as Hp.
  { split; [apply of_int_nonneg|]. split; [apply of_int_keeps_nonneg|].
    intros k Hk. now apply of_int_low_bits. }
  destruct (String.eqb (UUID.name u) "") eqn:Eu.
  - cbn [UUID.name UUID.value]. repeat split; try apply bytes_eqb_refl; apply Hp.
  - rewrite Eu. repeat split; try apply bytes_eqb_refl; apply Hp.
Qed.

(** Negative masks are read as complements within the flag bits. *)
Example props_of_negative_masks :
  Characteristic.props (Characteristic.make 1 2 uuid_2902 (-1) "" None []) = 1023 /\
  Characteristic.props (Characteristic.make 1 2 uuid_2902 (-17) "" None []) = 1007 /\
  Characteristic.props (Characteristic.make 1 2 uuid_2902 (-1024) "" None []) = 0 /\
  Characteristic.props (Characteristic.make 1 2 uuid_2902 (-1025) "" None []) = 1023 /\
  Characteristic.props (Characteristic.make 1 2 uuid_2902 (-2048) "" None []) = 2048 /\
  Characteristic.props (Characteristic.make 1 2 uuid_2902 (-2000) "" None []) = 48 /\
  Characteristic.props (Characteristic.make 1 2 uuid_2902 (-5000) "" None []) = 3192 /\
  Characteristic.props (Characteristic.make 1 2 uuid_2902 1025 "" None []) = 1025.
Proof. repeat split; reflexivity. Qed.

(** X28: an unnamed UUID object handed to one constructor and then to
    another carries the first record's name from then on: the second
    record, whatever its own name, shows the UUID under the first name, and
    so does the caller's object. *)
Theorem shared_uuid_keeps_first_name (h1 dh1 p1 h2 dh2 p2 : Z) (u : UUID.t)
    (name1 name2 : string) (v1 v2 : option bytes)
    (ds1 ds2 : Dict.t UUID.t Descriptor.t) :
  UUID.name u = ""%string ->
  name1 <> ""%string ->
  let first := Characteristic.construct h1 dh1 u p1 name1 v1 ds1 in
  let second := Characteristic.construct h2 dh2 (snd first) p2 name2 v2 ds2 in
  UUID.name (Characteristic.uuid (fst first)) = name1 /\
  UUID.name (Characteristic.uuid (fst second)) = name1 /\
  UUID.name (snd second) = name1 /\
  Characteristic.uuid (fst second) = Characteristic.uuid (fst first) /\
  UUID.value (snd second) = UUID.value u.
Proof.
  intros Hu Hn. cbv zeta.
  unfold Characteristic.construct, post_init_uuid.
  cbn [fst snd Characteristic.uuid]. rewrite Hu. cbn [String.eqb UUID.name UUID.value].
  destruct (String.eqb name1 "") eqn:E; [apply String.eqb_eq in E; contradiction|].
  repeat split.
Qed.

Lemma shared_uuid_keeps_first_name_witness :
  UUID.name uuid_2902 = ""%string /\
  "Battery Level"%string <> ""%string /\
  UUID.name (Characteristic.uuid
               (fst (Characteristic.construct 1 2 uuid_2902 0x10 "Battery Level" None [])))
    = "Battery Level"%string /\
  UUID.name (Characteristic.uuid
               (fst (Characteristic.construct 3 4
                       (snd (Characteristic.construct 1 2 uuid_2902 0x10
                               "Battery Level" None []))
                       0x02 "Tx Power Level" None [])))
    = "Battery Level"%string.
Proof.
  split; [reflexivity|]. split; [discriminate|].
  pose proof (shared_uuid_keeps_first_name 1 2 0x10 3 4 0x02 uuid_2902
                "Battery Level" "Tx Power Level" None None [] []
                eq_refl ltac:(discriminate)) as H.
  cbv zeta in H. split; [exact (proj1 H)|exact (proj1 (proj2 H))].
Defined.
